(** * Code_With_Bandhu: the room and signalling hub

    A shallow embedding of the collaborative-editing hub.

    - [server/src/server.ts]: the socket.io event handlers registered for
      every connection ([create-room], [join-room], [code-change],
      [language-change], [chat-message], [cursor-position], [disconnect]).
    - [client/src/App.tsx]: the client's [code-update] listener and its
      WebRTC negotiation listeners.
    - [server/src/utils/socketManager.ts] is not among the sources this
      development follows; the [SocketManager] methods the handlers
      call are modelled from the specification and are marked as such.
      The Registry's administrative [delete] is called by no handler
      and has no counterpart here.

    The event loop is single threaded: every handler runs to completion
    on the hub state, so a handler is a function from the state, the
    connection it was registered for and the payload to the new state and
    the list of messages sent, in order. *)

From Stdlib Require Import String Ascii List Bool Arith ZArith Lia.
Import ListNotations.
Open Scope string_scope.
Open Scope list_scope.

Set Implicit Arguments.

(* ===================================================================== *)
(** ** JavaScript values the handlers rely on *)
(* ===================================================================== *)

(** [String.prototype.toUpperCase] on ASCII text: the letters [a]..[z]
    move to [A]..[Z], every other byte stays. *)
Definition upper_ascii (c : ascii) : ascii :=
  let n := nat_of_ascii c in
  if ((97 <=? n) && (n <=? 122))%nat then ascii_of_nat (n - 32) else c.

Fixpoint toUpperCase (s : string) : string :=
  match s with
  | EmptyString => EmptyString
  | String c s' => String (upper_ascii c) (toUpperCase s')
  end.

(** [s.substring(a, b)] for [a <= b]: the characters at the indices
    [a .. b-1], clamped to the length of [s]. *)
Definition js_substring (a b : nat) (s : string) : string :=
  substring a (b - a) s.

(** A payload field may be absent ([undefined], [None]); the handlers
    test fields with [!field], which holds for [undefined] and for the
    empty string. *)
Definition falsy (f : option string) : bool :=
  match f with
  | None => true
  | Some s => String.eqb s EmptyString
  end.

(** Digits of a base-36 rendering. *)
Definition is_base36_digit (c : ascii) : bool :=
  let n := nat_of_ascii c in
  (((48 <=? n) && (n <=? 57)) || ((97 <=? n) && (n <=? 122)))%nat.

Definition is_upper_alnum (c : ascii) : bool :=
  let n := nat_of_ascii c in
  (((48 <=? n) && (n <=? 57)) || ((65 <=? n) && (n <=? 90)))%nat.

Fixpoint string_forall (p : ascii -> bool) (s : string) : bool :=
  match s with
  | EmptyString => true
  | String c s' => p c && string_forall p s'
  end.

(** What [Math.random().toString(36)] can print for a number of [0, 1):
    [0] itself, or [0.] followed by at least one base-36 digit. *)
Definition is_random_rendering (r : string) : bool :=
  match r with
  | String "0"%char EmptyString => true
  | String "0"%char (String "."%char (String d ds)) =>
      is_base36_digit d && string_forall is_base36_digit ds
  | _ => false
  end.

(** A string is truthy unless it is empty; [a || b] on strings is [a]
    when [a] is truthy, [b] otherwise. *)
Definition truthy (s : string) : bool := negb (String.eqb s EmptyString).

Definition js_or (a b : string) : string := if truthy a then a else b.

(** [field || fallback] for a field that may be absent. *)
Definition field_or (f : option string) (fallback : string) : string :=
  match f with
  | Some s => js_or s fallback
  | None => fallback
  end.

(** White space and line terminators of ASCII text, as
    [String.prototype.trim] removes them: tab, line feed, vertical tab,
    form feed, carriage return, space. *)
Definition is_js_space (c : ascii) : bool :=
  let n := nat_of_ascii c in
  (((9 <=? n) && (n <=? 13)) || (n =? 32))%nat.

Fixpoint trimStart (s : string) : string :=
  match s with
  | EmptyString => EmptyString
  | String c s' => if is_js_space c then trimStart s' else s
  end.

Fixpoint trimEnd (s : string) : string :=
  match s with
  | EmptyString => EmptyString
  | String c s' =>
      match trimEnd s' with
      | EmptyString =>
          if is_js_space c then EmptyString else String c EmptyString
      | t => String c t
      end
  end.

(** [s.trim()] *)
Definition trim (s : string) : string := trimEnd (trimStart s).

(** The one-character string of a line feed. *)
Definition newline : string := String (ascii_of_nat 10) EmptyString.

(** A value of type [any] as it comes off the wire.  Numbers are whole
    numbers here (a fraction is truthy like any other non-zero
    number); arrays and objects are known by their JSON text. *)
Inductive Json :=
| j_undefined
| j_null
| j_bool (b : bool)
| j_number (n : Z)
| j_string (s : string)
| j_array (text : string)
| j_object (text : string).

(** [!v] is false exactly for the truthy values: everything but
    [undefined], [null], [false], [0] and the empty string. *)
Definition js_truthy (v : Json) : bool :=
  match v with
  | j_undefined => false
  | j_null => false
  | j_bool b => b
  | j_number n => negb (Z.eqb n 0)
  | j_string s => truthy s
  | j_array _ => true
  | j_object _ => true
  end.

(* ===================================================================== *)
(** ** Insertion-ordered maps and sets *)
(* ===================================================================== *)

(** A JavaScript [Map<string, V>] keeps its entries in insertion order
    (the order of the presence list), so it is a list of entries;
    [set] on a present key overwrites in place, on a new key appends. *)
Module JsMap.
Section Defs.
Variable V : Type.

Definition t := list (string * V).

Definition empty : t := [].

Fixpoint get (k : string) (m : t) : option V :=
  match m with
  | [] => None
  | (k', v) :: m' => if String.eqb k k' then Some v else get k m'
  end.

Definition has (k : string) (m : t) : bool :=
  match get k m with Some _ => true | None => false end.

Fixpoint set (k : string) (v : V) (m : t) : t :=
  match m with
  | [] => [(k, v)]
  | (k', v') :: m' =>
      if String.eqb k k' then (k, v) :: m' else (k', v') :: set k v m'
  end.

Fixpoint delete (k : string) (m : t) : t :=
  match m with
  | [] => []
  | (k', v') :: m' =>
      if String.eqb k k' then delete k m' else (k', v') :: delete k m'
  end.

Definition keys (m : t) : list string := map fst m.
Definition values (m : t) : list V := map snd m.
End Defs.
Arguments empty {V}.
End JsMap.

(** A JavaScript [Set<string>], in insertion order. *)
Module JsSet.
Definition t := list string.

Definition empty : t := [].

Fixpoint has (k : string) (s : t) : bool :=
  match s with
  | [] => false
  | k' :: s' => String.eqb k k' || has k s'
  end.

Definition add (k : string) (s : t) : t :=
  if has k s then s else s ++ [k].

Fixpoint delete (k : string) (s : t) : t :=
  match s with
  | [] => []
  | k' :: s' => if String.eqb k k' then delete k s' else k' :: delete k s'
  end.
End JsSet.

(* ===================================================================== *)
(** ** Hub data model *)
(* ===================================================================== *)

(** An entry of [room.users]; [server.ts] reads [u.socketId] and
    [u.userName]. *)
Record Participant := mkParticipant {
  socketId : string;
  userName : string
}.

(** The in-memory state of one room: the shared buffer, its language,
    the members in join order, and the members that are in the call. *)
Record RoomState := mkRoom {
  code : string;
  language : string;
  users : JsMap.t Participant;
  peers : JsSet.t
}.

(** The chat message object built by the [chat-message] handler. *)
Record ChatMessage := mkChat {
  msg_id : string;
  msg_message : string;
  msg_userName : string;
  msg_timestamp : string;
  msg_userId : string
}.

Inductive SignalKind := Offer | Answer | IceCandidate.

(** Messages the hub sends to a connection. *)
Inductive OutEvent :=
| room_created (roomId : string) (members : list Participant)
| join_error (message : string)
| join_success
| users_update (members : list Participant)
| code_update (roomId code userId : string)
| language_update (language : string)
| new_message (m : ChatMessage)
| cursor_update (socketId userName : string) (position : Json)
| user_joined_call (socketId : string)
| user_left_call (socketId : string)
| call_peers_list (peerIds : list string)
| webrtc_signal (kind : SignalKind) (from payload : string)
| run_output (output language : string).

(** One send: the receiving connection and the message. *)
Definition Emission := (string * OutEvent)%type.

(** The hub: the registry of rooms ([SocketManager]'s map, the single
    source of truth for rooms) and the transport's room subscriptions
    made by [socket.join], as pairs (room, connection). *)
Record Hub := mkHub {
  rooms : JsMap.t RoomState;
  adapter : list (string * string)
}.

Definition initial_hub : Hub := mkHub JsMap.empty [].

Definition with_rooms (h : Hub) (rs : JsMap.t RoomState) : Hub :=
  mkHub rs (adapter h).

Definition socket_join (rid sid : string) (h : Hub) : Hub :=
  mkHub (rooms h) (adapter h ++ [(rid, sid)]).

(** On disconnect the transport drops every subscription of the
    connection. *)
Definition socket_drop (sid : string) (h : Hub) : Hub :=
  mkHub (rooms h)
        (filter (fun e => negb (String.eqb (snd e) sid)) (adapter h)).

(** Lookups used in the statements. *)
Definition room_code (h : Hub) (rid : string) : option string :=
  option_map code (JsMap.get rid (rooms h)).

Definition room_members (h : Hub) (rid : string) : option (list string) :=
  option_map (fun r => JsMap.keys (users r)) (JsMap.get rid (rooms h)).

(* ===================================================================== *)
(** ** SocketManager *)
(* ===================================================================== *)

(** The methods of [SocketManager] that [server.ts] calls, and the
    signalling relay of the specification.  Every method takes the hub
    and returns the hub after the call with the messages it sent. *)
Module SocketManager.

(** Modelled from the spec: [broadcast(roomId, eventKind, payload,
    excludeConnectionId?)] of the Broadcast Router, missing with
    [socketManager.ts]: the event goes to every connection of
    [Room.users], in join order, except the excluded one. *)
Definition broadcast (r : RoomState) (ev : OutEvent)
    (exclude : option string) : list Emission :=
  map (fun k => (k, ev))
      (filter (fun k => match exclude with
                        | Some x => negb (String.eqb k x)
                        | None => true
                        end)
              (JsMap.keys (users r))).

(** Modelled from the spec: the Registry's [get(roomId) -> Room?],
    missing with [socketManager.ts]: a lookup by the exact key. *)
Definition getRoom (rid : string) (h : Hub) : option RoomState :=
  JsMap.get rid (rooms h).

(** Modelled from the spec: the Registry's [all()], missing with
    [socketManager.ts]; [server.ts] uses the result as a [Map]. *)
Definition getAllRooms (h : Hub) : JsMap.t RoomState := rooms h.

(** Modelled from the spec: default language of a new room (the
    constant is missing with [socketManager.ts]; the clients start
    with this one). *)
Definition default_language : string := "javascript".

(** Modelled from the spec: a Room as the Registry's [create] installs
    it, missing with [socketManager.ts]: empty document, default
    language, no member, nobody in the call. *)
Definition new_room : RoomState :=
  mkRoom EmptyString default_language JsMap.empty JsSet.empty.

(** Modelled from the spec: [joinRoom] of the Session Gateway, missing
    with [socketManager.ts].  The room is installed when the Registry
    does not hold it yet (the create path: [server.ts] installs a room
    by no other call), the participant is added or overwritten under
    its connection id, and the updated membership list goes to the
    whole room. *)
Definition joinRoom (rid sid name : string) (h : Hub)
    : Hub * list Emission :=
  let r := match JsMap.get rid (rooms h) with
           | Some r => r
           | None => new_room
           end in
  let users' := JsMap.set sid (mkParticipant sid name) (users r) in
  let r' := mkRoom (code r) (language r) users' (peers r) in
  (with_rooms h (JsMap.set rid r' (rooms h)),
   broadcast r' (users_update (JsMap.values users')) None).

(** Modelled from the spec: what the Lifecycle Reconciler does to a
    room that holds the connection (part of [leaveRoom], missing with
    [socketManager.ts]): the connection leaves [users] and [peers]. *)
Definition room_without (sid : string) (r : RoomState) : RoomState :=
  mkRoom (code r) (language r)
         (JsMap.delete sid (users r)) (JsSet.delete sid (peers r)).

(** Modelled from the spec: what the Lifecycle Reconciler sends for a
    room that holds the connection (part of [leaveRoom], missing with
    [socketManager.ts]): a [user-left-call] to every remaining peer
    when the connection was in the call, then the presence list to the
    remaining members. *)
Definition leave_emissions (sid : string) (r : RoomState)
    : list Emission :=
  let r' := room_without sid r in
  (if JsSet.has sid (peers r)
   then map (fun p => (p, user_left_call sid)) (peers r')
   else [])
  ++ broadcast r' (users_update (JsMap.values (users r'))) None.

(** Modelled from the spec: the Lifecycle Reconciler's step for one
    room, missing with [socketManager.ts]: remove from [Room.users],
    remove from the call's [peers] if present (with the [user-left-call]
    of an explicit leave), then broadcast the presence list.  The room
    stays in the Registry; a connection that is not in the room is a
    no-op. *)
Definition leaveRoom (rid sid : string) (h : Hub)
    : Hub * list Emission :=
  match JsMap.get rid (rooms h) with
  | None => (h, [])
  | Some r =>
      if JsMap.has sid (users r)
      then (with_rooms h (JsMap.set rid (room_without sid r) (rooms h)),
            leave_emissions sid r)
      else (h, [])
  end.

(** Modelled from the spec: the Router's [code-update], missing with
    [socketManager.ts]: first [Room.code = code] (the whole buffer is
    replaced), then the update, carrying the originating connection
    id it was given, goes to all members but that one. *)
Definition updateCode (rid code' userId : string) (h : Hub)
    : Hub * list Emission :=
  match JsMap.get rid (rooms h) with
  | None => (h, [])
  | Some r =>
      let r' := mkRoom code' (language r) (users r) (peers r) in
      (with_rooms h (JsMap.set rid r' (rooms h)),
       broadcast r' (code_update rid code' userId) (Some userId))
  end.

(** Modelled from the spec: the Router's [language-update], missing
    with [socketManager.ts]: writes [Room.language], then fans out,
    excluding no one. *)
Definition updateLanguage (rid lang : string) (h : Hub)
    : Hub * list Emission :=
  match JsMap.get rid (rooms h) with
  | None => (h, [])
  | Some r =>
      let r' := mkRoom (code r) lang (users r) (peers r) in
      (with_rooms h (JsMap.set rid r' (rooms h)),
       broadcast r' (language_update lang) None)
  end.

(** Modelled from the spec: the Router's [chat-message], missing with
    [socketManager.ts]: no Room state is touched, the message goes to
    all members, the sender included. *)
Definition broadcastMessage (rid : string) (m : ChatMessage) (h : Hub)
    : Hub * list Emission :=
  match JsMap.get rid (rooms h) with
  | None => (h, [])
  | Some r => (h, broadcast r (new_message m) None)
  end.

(** Modelled from the spec: the Router's cursor event, missing with
    [socketManager.ts]: delivered to the members but the originator. *)
Definition broadcastCursorPosition (rid sid name : string)
    (position : Json) (h : Hub) : Hub * list Emission :=
  match JsMap.get rid (rooms h) with
  | None => (h, [])
  | Some r => (h, broadcast r (cursor_update sid name position) (Some sid))
  end.

(** *** Signalling relay *)

(** Modelled from the spec: [joinCall(roomId, connectionId)] of the
    Signaling Relay, missing from the sources: the id is announced to
    the existing peers and added to [peers].  Only a member of the
    room can be in its call (the CallSession invariant). *)
Definition joinCall (rid sid : string) (h : Hub) : Hub * list Emission :=
  match JsMap.get rid (rooms h) with
  | None => (h, [])
  | Some r =>
      if JsMap.has sid (users r)
      then
        let r' := mkRoom (code r) (language r) (users r)
                         (JsSet.add sid (peers r)) in
        (with_rooms h (JsMap.set rid r' (rooms h)),
         map (fun p => (p, user_joined_call sid))
             (JsSet.delete sid (peers r)))
      else (h, [])
  end.

(** Modelled from the spec: [get-call-peers], missing from the
    sources: the current peer list, the requester left out, goes to
    the requester only. *)
Definition getCallPeers (rid sid : string) (h : Hub)
    : Hub * list Emission :=
  match JsMap.get rid (rooms h) with
  | None => (h, [])
  | Some r => (h, [(sid, call_peers_list (JsSet.delete sid (peers r)))])
  end.

(** Modelled from the spec: [leaveCall(roomId, connectionId)], missing
    from the sources: removes the id from [peers] and notifies the
    remaining peers. *)
Definition leaveCall (rid sid : string) (h : Hub)
    : Hub * list Emission :=
  match JsMap.get rid (rooms h) with
  | None => (h, [])
  | Some r =>
      if JsSet.has sid (peers r)
      then
        let peers' := JsSet.delete sid (peers r) in
        let r' := mkRoom (code r) (language r) (users r) peers' in
        (with_rooms h (JsMap.set rid r' (rooms h)),
         map (fun p => (p, user_left_call sid)) peers')
      else (h, [])
  end.

(** Modelled from the spec: [relayOffer], [relayAnswer] and
    [relayIceCandidate] of the Signaling Relay, missing from the
    sources ([server.ts] registers no [webrtc-*] listener): pure
    point-to-point forwarding, validated only for room membership of
    [to], silently dropped if [to] is not in the room. *)
Definition relay (kind : SignalKind) (rid from to payload : string)
    (h : Hub) : Hub * list Emission :=
  match JsMap.get rid (rooms h) with
  | None => (h, [])
  | Some r =>
      if JsMap.has to (users r)
      then (h, [(to, webrtc_signal kind from payload)])
      else (h, [])
  end.

(** Modelled from the spec: the Router's [run-output], missing from
    the sources: relayed verbatim to all members. *)
Definition runOutput (rid output lang : string) (h : Hub)
    : Hub * list Emission :=
  match JsMap.get rid (rooms h) with
  | None => (h, [])
  | Some r => (h, broadcast r (run_output output lang) None)
  end.

End SocketManager.

(* ===================================================================== *)
(** ** server.ts: the handlers of a connection *)
(* ===================================================================== *)

(** What [server.ts] uses of its [socketManager]: the eight methods the
    handlers call, with the hub they act on made explicit.  The two
    getters only read. *)
Record Manager := mkManager {
  getRoom : string -> Hub -> option RoomState;
  getAllRooms : Hub -> JsMap.t RoomState;
  joinRoom : string -> string -> string -> Hub -> Hub * list Emission;
  leaveRoom : string -> string -> Hub -> Hub * list Emission;
  updateCode : string -> string -> string -> Hub -> Hub * list Emission;
  updateLanguage : string -> string -> Hub -> Hub * list Emission;
  broadcastMessage : string -> ChatMessage -> Hub -> Hub * list Emission;
  broadcastCursorPosition :
    string -> string -> string -> Json -> Hub -> Hub * list Emission
}.

(** Modelled from the spec: [const socketManager = new SocketManager(io)],
    the manager of [server.ts]; its methods are missing with
    [socketManager.ts] and are those the specification describes. *)
Definition socketManager : Manager :=
  mkManager SocketManager.getRoom SocketManager.getAllRooms
            SocketManager.joinRoom SocketManager.leaveRoom
            SocketManager.updateCode SocketManager.updateLanguage
            SocketManager.broadcastMessage
            SocketManager.broadcastCursorPosition.

(** Outcome of the room-catalog write [Room.create], an external call. *)
Inductive DbOutcome := DbSaved | DbRejected.

(** An inbound event that arrived with a payload object ([disconnect]
    has none to read); a field that may be missing from the object is
    an [option].  The values a handler draws from its environment
    travel with the event: the text printed by
    [Math.random().toString(36)] and the outcome of the catalog write
    for [create-room], the fresh uuid and the clock for [chat-message]. *)
Inductive InEvent :=
| create_room (roomName userName : string)
              (rendering : string) (db : DbOutcome)
| join_room (roomId userName : string)
| code_change (roomId : option string) (code userId : string)
| language_change (roomId language : option string)
| chat_message (roomId message userName : option string)
               (uuid now : string)
| cursor_position (roomId : option string) (position : Json)
                  (userName : string)
| disconnect.

(** [Math.random().toString(36).substring(2, 10).toUpperCase()] *)
Definition newRoomId (rendering : string) : string :=
  toUpperCase (js_substring 2 10 rendering).

(** The membership snapshot sent with [room-created]. *)
Definition snapshot (room : option RoomState) : list Participant :=
  match room with
  | Some r => map (fun u => mkParticipant (socketId u) (userName u))
                  (JsMap.values (users r))
  | None => []
  end.

(** The names of the events [server.ts] listens to. *)
Inductive EventName :=
| ev_create_room
| ev_join_room
| ev_code_change
| ev_language_change
| ev_chat_message
| ev_cursor_position
| ev_disconnect.

(** The two values that are no object to destructure. *)
Inductive Nullish := js_undefined | js_null.

(** What arrives on the socket: an event with a payload object, a
    [join-room] whose object has no [roomId], or an event whose
    argument is [undefined] or [null]. *)
Inductive Arrival :=
| with_payload (ev : InEvent)
| join_room_without_id (userName : string)
| without_payload (name : EventName) (data : Nullish).

Inductive JsError := TypeError.

(** How a listener ends: it returns, leaving the hub and the messages
    sent; it throws out of the listener, which nothing catches; or its
    promise is rejected, which nothing handles. *)
Inductive Completion :=
| Returned (h : Hub) (out : list Emission)
| Threw (e : JsError)
| Rejected (e : JsError).

Section Handlers.
(** The handlers, for any implementation of the manager. *)
Variable sm : Manager.

(** [socket.on('create-room', ...)]: the catalog write comes first; when
    it throws, the [catch] reports [join-error] and nothing else of the
    [try] block has run. *)
Definition on_create_room (h : Hub) (sid name : string)
    (rendering : string) (db : DbOutcome) : Hub * list Emission :=
  let rid := newRoomId rendering in
  match db with
  | DbRejected => (h, [(sid, join_error "Failed to create room")])
  | DbSaved =>
      let h1 := socket_join rid sid h in
      let (h2, out) := joinRoom sm rid sid name h1 in
      (h2, out ++ [(sid, room_created rid
                           (snapshot (getRoom sm rid h2)))])
  end.

(** [socket.on('join-room', ...)] *)
Definition on_join_room (h : Hub) (sid roomId name : string)
    : Hub * list Emission :=
  let rid := toUpperCase roomId in
  match getRoom sm rid h with
  | None => (h, [(sid, join_error "Room not found!")])
  | Some _ =>
      let h1 := socket_join rid sid h in
      let (h2, out) := joinRoom sm rid sid name h1 in
      (h2, out ++ [(sid, join_success)])
  end.

(** [socket.on('code-change', ...)]: the room id and the user id are
    taken from the payload as they come. *)
Definition on_code_change (h : Hub) (roomId : option string)
    (code' userId : string) : Hub * list Emission :=
  if falsy roomId then (h, [])
  else match roomId with
       | Some rid => updateCode sm rid code' userId h
       | None => (h, [])
       end.

(** [socket.on('language-change', ...)] *)
Definition on_language_change (h : Hub) (roomId lang : option string)
    : Hub * list Emission :=
  if falsy roomId || falsy lang then (h, [])
  else match roomId, lang with
       | Some rid, Some l => updateLanguage sm rid l h
       | _, _ => (h, [])
       end.

(** [socket.on('chat-message', ...)] *)
Definition on_chat_message (h : Hub) (sid : string)
    (roomId message name : option string) (uuid now : string)
    : Hub * list Emission :=
  if falsy roomId || falsy message || falsy name then (h, [])
  else match roomId, message, name with
       | Some rid, Some m, Some n =>
           broadcastMessage sm rid (mkChat uuid m n now sid) h
       | _, _, _ => (h, [])
       end.

(** [socket.on('cursor-position', ...)]; [position] is of type
    [any]. *)
Definition on_cursor_position (h : Hub) (sid : string)
    (roomId : option string) (position : Json) (name : string)
    : Hub * list Emission :=
  if falsy roomId || negb (js_truthy position) then (h, [])
  else match roomId with
       | Some rid => broadcastCursorPosition sm rid sid name position h
       | None => (h, [])
       end.

(** One turn of [rooms.forEach] in the [disconnect] handler: the room
    is looked at as it is when its turn comes. *)
Definition disconnect_visit (sid : string) (acc : Hub * list Emission)
    (rid : string) : Hub * list Emission :=
  match JsMap.get rid (getAllRooms sm (fst acc)) with
  | Some room =>
      if JsMap.has sid (users room)
      then let (h', out) := leaveRoom sm rid sid (fst acc) in
           (h', snd acc ++ out)
      else acc
  | None => acc
  end.

(** [socket.on('disconnect', ...)]: every room that holds the
    connection is left; no room is deleted. *)
Definition on_disconnect (h : Hub) (sid : string) : Hub * list Emission :=
  fold_left (disconnect_visit sid)
            (JsMap.keys (getAllRooms sm h))
            (socket_drop sid h, []).

(** The listener table of [io.on('connection', ...)] for the connection
    [sid]: what each listener does once it holds its payload object. *)
Definition handle (h : Hub) (sid : string) (ev : InEvent)
    : Hub * list Emission :=
  match ev with
  | create_room _ name rendering db => on_create_room h sid name rendering db
  | join_room roomId name => on_join_room h sid roomId name
  | code_change roomId c userId => on_code_change h roomId c userId
  | language_change roomId lang => on_language_change h roomId lang
  | chat_message roomId m name uuid now =>
      on_chat_message h sid roomId m name uuid now
  | cursor_position roomId p name => on_cursor_position h sid roomId p name
  | disconnect => on_disconnect h sid
  end.

(** A listener called with what arrived.  The listeners of
    [join-room], [code-change], [language-change], [chat-message] and
    [cursor-position] start with [const { ... } = data], and
    [create-room] destructures its parameter: on [undefined] or [null]
    this throws a [TypeError] before any guard is reached, out of the
    listener (or, in the [async] listener of [create-room], as a
    rejection outside its [try]).  [join-room] then calls
    [roomId.toUpperCase()], which throws when the object has no
    [roomId].  The [disconnect] listener takes no argument. *)
Definition receive (h : Hub) (sid : string) (a : Arrival) : Completion :=
  match a with
  | with_payload ev =>
      let (h', out) := handle h sid ev in Returned h' out
  | join_room_without_id _ => Threw TypeError
  | without_payload ev_disconnect _ =>
      let (h', out) := handle h sid disconnect in Returned h' out
  | without_payload ev_create_room _ => Rejected TypeError
  | without_payload _ _ => Threw TypeError
  end.

End Handlers.

(** Modelled from the spec: the inbound events of the Signaling Relay
    and [run-output]; [server.ts] has no listener for them and their
    handlers are missing from the sources. *)
Inductive CallEvent :=
| join_call (roomId : string)
| get_call_peers (roomId : string)
| leave_call (roomId : string)
| webrtc (kind : SignalKind) (roomId to payload : string)
| run_output_event (roomId output language : string).

Definition signal (h : Hub) (sid : string) (ev : CallEvent)
    : Hub * list Emission :=
  match ev with
  | join_call rid => SocketManager.joinCall rid sid h
  | get_call_peers rid => SocketManager.getCallPeers rid sid h
  | leave_call rid => SocketManager.leaveCall rid sid h
  | webrtc kind rid to payload =>
      SocketManager.relay kind rid sid to payload h
  | run_output_event rid output lang =>
      SocketManager.runOutput rid output lang h
  end.

(** Any operation on the hub. *)
Inductive Inbound :=
| Registered (ev : InEvent)
| Signalling (ev : CallEvent).

Definition hub_step (h : Hub) (sid : string) (i : Inbound)
    : Hub * list Emission :=
  match i with
  | Registered ev => handle socketManager h sid ev
  | Signalling ev => signal h sid ev
  end.

(** The hub processes the events one after the other, in the order it
    received them. *)
Fixpoint run (h : Hub) (evs : list (string * Inbound))
    : Hub * list Emission :=
  match evs with
  | [] => (h, [])
  | (sid, i) :: evs' =>
      let (h1, out1) := hub_step h sid i in
      let (h2, out2) := run h1 evs' in
      (h2, out1 ++ out2)
  end.

(* ===================================================================== *)
(** ** App.tsx: the client's listeners *)
(* ===================================================================== *)

Module Client.

(** A message the client sends to the hub while it negotiates. *)
Inductive Sent :=
| sent_offer (roomId to : string) (pc : nat)
| sent_answer (roomId to : string) (pc : nat).

(** The part of the component's state the listeners use.  An
    [RTCPeerConnection] is known by the rank of its construction, so
    [constructed] counts the [new RTCPeerConnection] calls and is the
    identity of the next one; [peerConnections] is the object
    [peerConnections.current], from the other side's socket id to its
    connection. *)
Record State := mkState {
  self : string;
  roomId : option string;
  localStream : bool;
  editor : string;
  peerConnections : JsMap.t nat;
  constructed : nat;
  outbox : list Sent
}.

(** [safeSetCode] applied to a string. *)
Definition safeSetCode (newCode : string) (c : State) : State :=
  mkState (self c) (roomId c) (localStream c) newCode
          (peerConnections c) (constructed c) (outbox c).

(** [onCodeUpdate]: an update that carries the client's own id is
    ignored. *)
Definition onCodeUpdate (code' userId : string) (c : State) : State :=
  let isSelf := String.eqb userId (self c) in
  if negb isSelf then safeSetCode code' c else c.

(** [createPeerConnection(otherSocketId)]: constructs a connection and
    stores it under the other side's id, over whatever was there. *)
Definition createPeerConnection (other : string) (c : State)
    : State * nat :=
  let pc := constructed c in
  (mkState (self c) (roomId c) (localStream c) (editor c)
           (JsMap.set other pc (peerConnections c))
           (S pc) (outbox c),
   pc).

Definition emit (m : Sent) (c : State) : State :=
  mkState (self c) (roomId c) (localStream c) (editor c)
          (peerConnections c) (constructed c) (outbox c ++ [m]).

(** The body of [peerIds.forEach] in [onCallPeersList]: a connection
    is constructed for a peer that has none.  The offer is then
    created and set as local description in a promise chain whose last
    callback reads [offer], a name bound in the callback before it
    only: the [s.emit('webrtc-offer', ...)] there throws a
    [ReferenceError] inside the chain and nothing is sent. *)
Definition offer_to (rid : string) (c : State) (peerId : string)
    : State :=
  if negb (JsMap.has peerId (peerConnections c))
  then fst (createPeerConnection peerId c)
  else c.

(** [onCallPeersList] *)
Definition onCallPeersList (peerIds : list string) (c : State) : State :=
  if negb (localStream c) || falsy (roomId c) then c
  else match roomId c with
       | Some rid => fold_left (offer_to rid) peerIds c
       | None => c
       end.

(** [onUserJoinedCall] *)
Definition onUserJoinedCall (other : string) (c : State) : State :=
  if falsy (roomId c) then c
  else match roomId c with
       | Some rid =>
           if JsMap.has other (peerConnections c) then c
           else let (c', pc) := createPeerConnection other c in
                if localStream c then emit (sent_offer rid other pc) c'
                else c'
       | None => c
       end.

(** [onWebrtcOffer]: no look at [peerConnections.current] before
    [createPeerConnection(data.from)]. *)
Definition onWebrtcOffer (from : string) (c : State) : State :=
  if falsy (roomId c) then c
  else match roomId c with
       | Some rid =>
           let (c', pc) := createPeerConnection from c in
           emit (sent_answer rid from pc) c'
       | None => c
       end.

End Client.

(* ===================================================================== *)
(** ** App.tsx: forms, chat, editor and the Run button *)
(* ===================================================================== *)

Module App.

(** The socket.io client object: [s.id] and [s.connected]. *)
Record Socket := mkSocket {
  id : string;
  connected : bool
}.

(** What the component sends to the hub with [s.emit]. *)
Inductive Emit :=
| emit_join_room (roomId userName : string) (avatar : option string)
| emit_create_room (roomName userName : string) (avatar : option string)
| emit_chat_message (roomId message userName : string)
                    (avatar : option string)
| emit_code_change (roomId code userId : string)
| emit_language_change (roomId language : string)
| emit_run_output (roomId output language : string).

Inductive Toast :=
| toast_error (message : string)
| toast_success (message : string)
| toast_plain (message : string).

(** The state the form, chat and editor callbacks read and write:
    [socketRef.current], the [useState] cells of the forms and the
    editor, and [roomId], [currentUser], [avatar] of the editor
    context. *)
Record State := mkState {
  socketRef : option Socket;
  userName : string;
  roomIdToJoin : string;
  roomNameForCreation : string;
  avatar : option string;
  roomId : option string;
  currentUser : string;
  inputMessage : string;
  code : string;
  language : string;
  output : string;
  isRunning : bool
}.

Definition setRoomId (v : option string) (c : State) : State :=
  mkState (socketRef c) (userName c) (roomIdToJoin c)
          (roomNameForCreation c) (avatar c) v (currentUser c)
          (inputMessage c) (code c) (language c) (output c) (isRunning c).

Definition setCurrentUser (v : string) (c : State) : State :=
  mkState (socketRef c) (userName c) (roomIdToJoin c)
          (roomNameForCreation c) (avatar c) (roomId c) v
          (inputMessage c) (code c) (language c) (output c) (isRunning c).

Definition setRoomIdToJoin (v : string) (c : State) : State :=
  mkState (socketRef c) (userName c) v
          (roomNameForCreation c) (avatar c) (roomId c) (currentUser c)
          (inputMessage c) (code c) (language c) (output c) (isRunning c).

Definition setInputMessage (v : string) (c : State) : State :=
  mkState (socketRef c) (userName c) (roomIdToJoin c)
          (roomNameForCreation c) (avatar c) (roomId c) (currentUser c)
          v (code c) (language c) (output c) (isRunning c).

Definition setCode (v : string) (c : State) : State :=
  mkState (socketRef c) (userName c) (roomIdToJoin c)
          (roomNameForCreation c) (avatar c) (roomId c) (currentUser c)
          (inputMessage c) v (language c) (output c) (isRunning c).

Definition setLanguage (v : string) (c : State) : State :=
  mkState (socketRef c) (userName c) (roomIdToJoin c)
          (roomNameForCreation c) (avatar c) (roomId c) (currentUser c)
          (inputMessage c) (code c) v (output c) (isRunning c).

Definition setOutput (v : string) (c : State) : State :=
  mkState (socketRef c) (userName c) (roomIdToJoin c)
          (roomNameForCreation c) (avatar c) (roomId c) (currentUser c)
          (inputMessage c) (code c) (language c) v (isRunning c).

Definition setIsRunning (v : bool) (c : State) : State :=
  mkState (socketRef c) (userName c) (roomIdToJoin c)
          (roomNameForCreation c) (avatar c) (roomId c) (currentUser c)
          (inputMessage c) (code c) (language c) (output c) v.

(** A callback leaves the state after its [set...] calls, the messages
    it emitted and the toasts it showed, in order. *)
Definition Outcome := (State * list Emit * list Toast)%type.

(** [!s || !s.connected] *)
Definition offline (c : State) : bool :=
  match socketRef c with
  | Some s => negb (connected s)
  | None => true
  end.

(** The [onChange] of the Room ID input. *)
Definition onRoomIdInput (value : string) (c : State) : State :=
  setRoomIdToJoin (toUpperCase value) c.

(** The effect that reads [?room=...] from the URL. *)
Definition onUrlRoom (rid : option string) (c : State) : State :=
  match rid with
  | Some r => if falsy rid then c else setRoomIdToJoin (toUpperCase r) c
  | None => c
  end.

(** [joinRoom] *)
Definition joinRoom (c : State) : Outcome :=
  if negb (truthy (trim (userName c)))
  then (c, [], [toast_error "Enter your name!"])
  else if negb (truthy (trim (roomIdToJoin c)))
  then (c, [], [toast_error "Room ID is required!"])
  else if falsy (avatar c)
  then (c, [], [toast_error "Please choose an avatar!"])
  else if offline c
  then (c, [], [toast_error "Not connected to server yet"])
  else
    let rid := toUpperCase (roomIdToJoin c) in
    (setCurrentUser (userName c) (setRoomId (Some rid) c),
     [emit_join_room rid (userName c) (avatar c)], []).

(** [handleCreateRoom] *)
Definition handleCreateRoom (c : State) : Outcome :=
  if negb (truthy (trim (userName c)))
  then (c, [], [toast_error "Enter your name!"])
  else if negb (truthy (trim (roomNameForCreation c)))
  then (c, [], [toast_error "Enter a room name!"])
  else if falsy (avatar c)
  then (c, [], [toast_error "Please choose an avatar!"])
  else if offline c
  then (c, [], [toast_error "Not connected to server yet"])
  else
    (setCurrentUser (userName c) c,
     [emit_create_room (roomNameForCreation c) (userName c) (avatar c)],
     []).

(** [sendMessage] *)
Definition sendMessage (c : State) : Outcome :=
  match socketRef c, roomId c with
  | Some _, Some rid =>
      if negb (truthy (trim (inputMessage c))) || falsy (roomId c)
      then (c, [], [])
      else
        (setInputMessage EmptyString c,
         [emit_chat_message rid (inputMessage c)
            (js_or (js_or (currentUser c) (userName c)) "Anonymous")
            (avatar c)],
         [])
  | _, _ => (c, [], [])
  end.

(** The [onChange] of the editor; [value] may be [undefined]. *)
Definition onEditorChange (value : option string) (c : State) : Outcome :=
  match value with
  | None => (c, [], [])
  | Some v =>
      let c' := setCode v c in
      match socketRef c, roomId c with
      | Some s, Some rid =>
          if negb (falsy (roomId c)) && connected s
          then (c', [emit_code_change rid v (id s)], [])
          else (c', [], [])
      | _, _ => (c', [], [])
      end
  end.

(** [ALL_LANGUAGES], the values of the language selector. *)
Definition ALL_LANGUAGES : list string :=
  [ "javascript"; "typescript"; "python"; "java"; "cpp"; "csharp"; "php";
    "ruby"; "go"; "rust"; "html"; "css"; "sql" ].

(** The [onChange] of the language selector. *)
Definition onLanguageSelect (newLang : string) (c : State) : Outcome :=
  let c' := setLanguage newLang c in
  match socketRef c, roomId c with
  | Some _, Some rid =>
      if falsy (roomId c) then (c', [], [])
      else (c', [emit_language_change rid newLang], [])
  | _, _ => (c', [], [])
  end.

(** *** Running the code *)

(** The JSON body of the execution service's answer. *)
Record RunData := mkRunData {
  stdout : option string;
  stderr : option string;
  compile_output : option string;
  error : option string
}.

(** What [await fetch(...)] and [await res.json()] come to: an answer
    with [res.ok] and its body, or an exception with its message. *)
Inductive FetchOutcome :=
| Responded (ok : bool) (data : RunData)
| Threw (message : string).

(** [out += (out ? '\n' : '') + part], done when [part] is truthy. *)
Definition add_part (out : string) (part : option string) : string :=
  match part with
  | Some p =>
      if falsy part then out
      else (out ++ (if truthy out then newline else EmptyString) ++ p)%string
  | None => out
  end.

(** The text shown for a successful run. *)
Definition finalOutput (data : RunData) : string :=
  let out := EmptyString in
  let out := match stdout data with
             | Some p =>
                 if falsy (stdout data) then out else (out ++ p)%string
             | None => out
             end in
  let out := add_part out (stderr data) in
  let out := add_part out (compile_output data) in
  js_or out "(no output)".

(** [runCode(codeToRun, lang)], given what the fetch comes to. *)
Definition runCode (codeToRun lang : string) (fetch : FetchOutcome)
    (c : State) : Outcome :=
  if negb (truthy (trim codeToRun))
  then (c, [], [toast_error "Nothing to run"])
  else
    let c1 := setOutput EmptyString (setIsRunning true c) in
    match fetch with
    | Responded true data =>
        let final := finalOutput data in
        let c2 := setOutput final c1 in
        (setIsRunning false c2,
         match socketRef c, roomId c with
         | Some _, Some rid =>
             if falsy (roomId c) then []
             else [emit_run_output rid final lang]
         | _, _ => []
         end,
         [])
    | Responded false data =>
        let message := field_or (error data) "Execution failed" in
        (setIsRunning false
           (setOutput ("Error: " ++ js_or message "Run failed")%string c1),
         [], [toast_error (js_or message "Run failed")])
    | Threw message =>
        (setIsRunning false
           (setOutput ("Error: " ++ js_or message "Run failed")%string c1),
         [], [toast_error (js_or message "Run failed")])
    end.

(** The [onClick] of the Run button. *)
Definition onRunClick (fetch : FetchOutcome) (c : State) : Outcome :=
  if falsy (roomId c)
  then (c, [], [toast_error "No room to run code in"])
  else if negb (truthy (trim (code c)))
  then (c, [], [toast_error "Nothing to run"])
  else runCode (code c) (language c) fetch c.

End App.

(* ===================================================================== *)
(** ** App.tsx: the call controls *)
(* ===================================================================== *)

Module Media.

Inductive TrackKind := video | audio.

(** A [MediaStreamTrack]: its kind and its [enabled] flag. *)
Record Track := mkTrack {
  kind : TrackKind;
  enabled : bool
}.

Definition is_video (t : Track) : bool :=
  match kind t with video => true | audio => false end.

Definition is_audio (t : Track) : bool :=
  match kind t with audio => true | video => false end.

Inductive Emit :=
| emit_join_call (roomId : string)
| emit_get_call_peers (roomId : string)
| emit_leave_call (roomId : option string).

(** The state of the call controls.  Peer connections and remote
    streams are known by a number; [closed] lists the connections on
    which [close()] has been called, [stopped] the tracks on which
    [stop()] has been called. *)
Record State := mkState {
  hasSocket : bool;
  roomId : option string;
  inCall : bool;
  localStream : option (list Track);
  remoteStreams : JsMap.t nat;
  peerConnections : JsMap.t nat;
  closed : list nat;
  stopped : list Track;
  videoEnabled : bool;
  audioEnabled : bool;
  speakerEnabled : bool
}.

Definition Outcome := (State * list Emit * list App.Toast)%type.

(** What [navigator.mediaDevices.getUserMedia] comes to. *)
Inductive MediaOutcome :=
| Granted (stream : list Track)
| Denied (name : string).

(** [startCall] *)
Definition startCall (media : MediaOutcome) (c : State) : Outcome :=
  match roomId c with
  | Some rid =>
      if falsy (roomId c) || negb (hasSocket c)
      then (c, [], [App.toast_error "Join a room first"])
      else if inCall c
      then (c, [], [App.toast_plain "Already in call"])
      else
        match media with
        | Granted stream =>
            (mkState (hasSocket c) (roomId c) true (Some stream)
                     (remoteStreams c) (peerConnections c) (closed c)
                     (stopped c) true true true,
             [emit_join_call rid; emit_get_call_peers rid], [])
        | Denied name =>
            (c, [],
             [App.toast_error
                ("Could not access camera/microphone: " ++ name)%string])
        end
  | None => (c, [], [App.toast_error "Join a room first"])
  end.

(** [leaveCall] *)
Definition leaveCall (c : State) : State * list Emit :=
  if negb (inCall c) || negb (hasSocket c) then (c, [])
  else
    (mkState (hasSocket c) (roomId c) false None
             JsMap.empty JsMap.empty
             (closed c ++ JsMap.values (peerConnections c))
             (stopped c ++ match localStream c with
                           | Some tracks => tracks
                           | None => []
                           end)
             true true true,
     [emit_leave_call (roomId c)]).

(** [onUserLeftCall] *)
Definition onUserLeftCall (other : string) (c : State) : State :=
  let c' :=
    match JsMap.get other (peerConnections c) with
    | Some pc =>
        mkState (hasSocket c) (roomId c) (inCall c) (localStream c)
                (remoteStreams c)
                (JsMap.delete other (peerConnections c))
                (closed c ++ [pc]) (stopped c)
                (videoEnabled c) (audioEnabled c) (speakerEnabled c)
    | None => c
    end in
  mkState (hasSocket c') (roomId c') (inCall c') (localStream c')
          (JsMap.delete other (remoteStreams c'))
          (peerConnections c') (closed c') (stopped c')
          (videoEnabled c') (audioEnabled c') (speakerEnabled c').

(** [track.enabled = newEnabled] on the tracks of one kind. *)
Definition set_enabled (which : Track -> bool) (v : bool)
    (tracks : list Track) : list Track :=
  map (fun t => if which t then mkTrack (kind t) v else t) tracks.

(** [toggleVideo] *)
Definition toggleVideo (c : State) : State * list App.Toast :=
  match localStream c with
  | None => (c, [App.toast_error "Not in a call"])
  | Some tracks =>
      let newEnabled := negb (videoEnabled c) in
      (mkState (hasSocket c) (roomId c) (inCall c)
               (Some (set_enabled is_video newEnabled tracks))
               (remoteStreams c) (peerConnections c) (closed c)
               (stopped c) newEnabled (audioEnabled c) (speakerEnabled c),
       [])
  end.

(** [toggleAudio] *)
Definition toggleAudio (c : State) : State * list App.Toast :=
  match localStream c with
  | None => (c, [App.toast_error "Not in a call"])
  | Some tracks =>
      let newEnabled := negb (audioEnabled c) in
      (mkState (hasSocket c) (roomId c) (inCall c)
               (Some (set_enabled is_audio newEnabled tracks))
               (remoteStreams c) (peerConnections c) (closed c)
               (stopped c) (videoEnabled c) newEnabled (speakerEnabled c),
       [])
  end.

(** [toggleSpeaker] *)
Definition toggleSpeaker (c : State) : State :=
  mkState (hasSocket c) (roomId c) (inCall c) (localStream c)
          (remoteStreams c) (peerConnections c) (closed c) (stopped c)
          (videoEnabled c) (audioEnabled c) (negb (speakerEnabled c)).

End Media.

(* ===================================================================== *)
(** ** client/src/App.tsx: the earlier code-update listener *)
(* ===================================================================== *)

Module Legacy.

(** The payload of [code-update] as the earlier listener reads it:
    [code] is [None] when it is not a string. *)
Record CodeUpdate := mkCodeUpdate {
  userId : option string;
  code : option string;
  language : option string
}.

(** The editor's text and language. *)
Record Editor := mkEditor {
  text : string;
  lang : string
}.

(** [onCodeUpdate] of the earlier client, for the socket id [self]. *)
Definition onCodeUpdate (self : string) (data : CodeUpdate) (e : Editor)
    : Editor :=
  let isSelf :=
    match userId data with
    | Some u => negb (falsy (userId data)) && String.eqb u self
    | None => false
    end in
  if negb isSelf
  then
    let e1 := match code data with
              | Some c => mkEditor c (lang e)
              | None => e
              end in
    match language data with
    | Some l => if falsy (language data) then e1 else mkEditor (text e1) l
    | None => e1
    end
  else e.

End Legacy.

(* ===================================================================== *)
(** ** Vocabulary of the statements *)
(* ===================================================================== *)

(** A [code-change], [language-change] or [chat-message] payload
    object that lacks one of the fields its handler needs (the field
    is absent or empty). *)
Definition missing_required_field (ev : InEvent) : bool :=
  match ev with
  | code_change roomId _ _ => falsy roomId
  | language_change roomId lang => falsy roomId || falsy lang
  | chat_message roomId m n _ _ => falsy roomId || falsy m || falsy n
  | _ => false
  end.

(** An arrival of [code-change], [language-change] or [chat-message]
    that misses a required field: its payload object lacks the field,
    or there is no payload object at all. *)
Definition lacks_required_field (a : Arrival) : bool :=
  match a with
  | with_payload ev => missing_required_field ev
  | join_room_without_id _ => false
  | without_payload name _ =>
      match name with
      | ev_code_change | ev_language_change | ev_chat_message => true
      | _ => false
      end
  end.

(** The document an inbound event writes into the room [rid], if any. *)
Definition code_written (rid : string) (i : Inbound) : option string :=
  match i with
  | Registered (code_change (Some rid') c _) =>
      if String.eqb rid' rid then Some c else None
  | _ => None
  end.

(** The payload of the most recent [code-change] for [rid] in a
    sequence of events. *)
Fixpoint last_code_change (rid : string) (evs : list (string * Inbound))
    : option string :=
  match evs with
  | [] => None
  | (_, i) :: evs' =>
      match last_code_change rid evs' with
      | Some c => Some c
      | None => code_written rid i
      end
  end.

(** Number of [user-left-call] messages about [sid] sent to [p]. *)
Definition is_left_call_for (p sid : string) (e : Emission) : bool :=
  String.eqb (fst e) p &&
  match snd e with
  | user_left_call x => String.eqb x sid
  | _ => false
  end.

Definition left_call_count (p sid : string) (out : list Emission) : nat :=
  length (filter (is_left_call_for p sid) out).

(** The CallSession invariant of a room: [peers] is a set, and a
    connection is in [peers] only if it is in [users]. *)
Definition room_wf (r : RoomState) : Prop :=
  NoDup (peers r) /\
  forall p, In p (peers r) -> JsMap.has p (users r) = true.

Definition hub_wf (h : Hub) : Prop :=
  forall rid r, JsMap.get rid (rooms h) = Some r -> room_wf r.

(** What the [disconnect] scan for [sid] has done to the room [rid]
    once it has gone over the keys [ks]. *)
Definition scanned (sid rid : string) (ks : list string) (r : RoomState)
    : RoomState :=
  if existsb (String.eqb rid) ks && JsMap.has sid (users r)
  then SocketManager.room_without sid r
  else r.

(** Every key of the registry is its own upper-case form. *)
Definition keys_upper (h : Hub) : Prop :=
  forall rid, JsMap.has rid (rooms h) = true -> toUpperCase rid = rid.

(** A manager under which a [code-change] reaches every member of the
    room but the connection that sent it, and never that connection. *)
Definition spares_every_sender (sm : Manager) : Prop :=
  forall (h : Hub) (A rid c uid : string) (r : RoomState),
    JsMap.get rid (rooms h) = Some r ->
    let out := snd (handle sm h A (code_change (Some rid) c uid)) in
    (forall m, In m (JsMap.keys (users r)) -> m <> A ->
               exists e, In (m, e) out) /\
    (forall e, ~ In (A, e) out).

(** The connection [sid] is a member of no room but [rid]. *)
Definition only_in (h : Hub) (sid rid : string) : Prop :=
  forall rid' r', rid' <> rid -> JsMap.get rid' (rooms h) = Some r' ->
                  JsMap.has sid (users r') = false.

(** *** Sample runs

    The room [ABCD1234] of the specification's scenario: X creates it,
    Y joins it (typing the id in lower case). *)
Definition scenario_events : list (string * Inbound) :=
  [ ("X", Registered (create_room "demo" "ann" "0.abcd1234xyz" DbSaved));
    ("Y", Registered (join_room "abcd1234" "bob")) ].

Definition hub_xy : Hub := fst (run initial_hub scenario_events).

Definition room_xy : RoomState :=
  mkRoom EmptyString "javascript"
         [("X", mkParticipant "X" "ann"); ("Y", mkParticipant "Y" "bob")]
         [].

(** The same room after X and Y have both joined its call. *)
Definition hub_call : Hub :=
  fst (run hub_xy [ ("X", Signalling (join_call "ABCD1234"));
                    ("Y", Signalling (join_call "ABCD1234")) ]).

Definition room_call : RoomState :=
  mkRoom EmptyString "javascript"
         [("X", mkParticipant "X" "ann"); ("Y", mkParticipant "Y" "bob")]
         ["X"; "Y"].

(** A client in the room [ABCD1234] with its camera on and a live
    connection to Y. *)
Definition client_peering : Client.State :=
  Client.mkState "X" (Some "ABCD1234") true EmptyString
                 [("Y", 0)] 1 [].

(** *** Vocabulary for the client *)

(** The truthy ones among the three texts of an execution result, in
    the order [stdout], [stderr], [compile_output]. *)
Definition present_parts (data : App.RunData) : list string :=
  filter truthy
         (map (fun part => field_or part EmptyString)
              [App.stdout data; App.stderr data; App.compile_output data]).

(** The room a client holding a socket is in, if any: the test
    [s && roomId] of the callbacks. *)
Definition room_of (c : App.State) : option string :=
  match App.socketRef c, App.roomId c with
  | Some _, Some rid => if truthy rid then Some rid else None
  | _, _ => None
  end.

(** The buttons of the call show the state of the local tracks: every
    video track is enabled exactly when [videoEnabled] is set, every
    audio track exactly when [audioEnabled] is set. *)
Definition in_sync (c : Media.State) : bool :=
  match Media.localStream c with
  | Some tracks =>
      forallb (fun t =>
                 Bool.eqb (Media.enabled t)
                          (if Media.is_video t then Media.videoEnabled c
                           else Media.audioEnabled c))
              tracks
  | None => true
  end.

(** A form filled in by a connected user: name, avatar, and a room id
    typed in lower case. *)
Definition form_filled : App.State :=
  App.mkState (Some (App.mkSocket "X" true)) "ann" "abcd1234" "demo"
              (Some "/avatars/avatar1.png") None EmptyString EmptyString
              EmptyString "javascript" EmptyString false.

(** The same user once in the room [ABCD1234], typing a chat message. *)
Definition in_room : App.State :=
  App.mkState (Some (App.mkSocket "X" true)) "ann" "ABCD1234" "demo"
              (Some "/avatars/avatar1.png") (Some "ABCD1234") "ann"
              "hello" "print(1)" "python" EmptyString false.

(** A client in a call with camera and microphone on, connected to Y
    and Z. *)
Definition in_call : Media.State :=
  Media.mkState true (Some "ABCD1234") true
                (Some [Media.mkTrack Media.video true;
                       Media.mkTrack Media.audio true])
                [("Y", 7); ("Z", 8)] [("Y", 0); ("Z", 1)] [] []
                true true true.

(** A client in the room [ABCD1234] that is not in the call. *)
Definition ready_to_call : Media.State :=
  Media.mkState true (Some "ABCD1234") false None [] [] [] []
                true true true.


(** *** Proof automation *)

(** Case analysis over the branches of a handler. *)
Ltac handler_cases :=
  repeat match goal with
  | |- context [if falsy ?f then _ else _] => destruct (falsy f) eqn:?
  | |- context [if falsy ?f || _ then _ else _] =>
      destruct (falsy f) eqn:?; simpl orb
  | |- context [match ?o with Some _ => _ | None => _ end] =>
      lazymatch o with
      | JsMap.get _ (rooms _) => destruct o eqn:?
      | SocketManager.getRoom _ _ => destruct o eqn:?
      | _ => is_var o; destruct o
      end
  | |- context [match ?d with DbSaved => _ | DbRejected => _ end] =>
      is_var d; destruct d
  | |- context [if JsMap.has ?k (users ?r) then _ else _] =>
      destruct (JsMap.has k (users r)) eqn:?
  | |- context [if JsSet.has ?k (peers ?r) then _ else _] =>
      destruct (JsSet.has k (peers r)) eqn:?
  | |- context [fst (if ?b then _ else _)] => destruct b eqn:?
  | |- context [snd (if ?b then _ else _)] => destruct b eqn:?
  end.

Ltac manager_methods :=
  cbv beta iota delta
    [socketManager getRoom getAllRooms joinRoom leaveRoom updateCode
     updateLanguage broadcastMessage broadcastCursorPosition].

Ltac unfold_handlers :=
  unfold hub_step, handle, signal,
    on_create_room, on_join_room, on_code_change, on_language_change,
    on_chat_message, on_cursor_position;
  manager_methods;
  unfold SocketManager.getRoom, SocketManager.getAllRooms,
    SocketManager.joinRoom, SocketManager.leaveRoom,
    SocketManager.updateCode, SocketManager.updateLanguage,
    SocketManager.broadcastMessage, SocketManager.broadcastCursorPosition,
    SocketManager.joinCall, SocketManager.getCallPeers,
    SocketManager.leaveCall, SocketManager.relay,
    SocketManager.runOutput.

(* ===================================================================== *)
(** ** Maps, sets and strings: basic facts *)
(* ===================================================================== *)

Section JsMapFacts.
Variable V : Type.
Implicit Types (m : JsMap.t V) (k : string) (v : V).

Lemma get_set k k' v m :
  JsMap.get k (JsMap.set k' v m) =
  if String.eqb k k' then Some v else JsMap.get k m.
Proof.
  induction m as [|[k0 v0] m IH]; simpl.
  - destruct (String.eqb k k'); reflexivity.
  - destruct (String.eqb k' k0) eqn:E0; simpl.
    + apply String.eqb_eq in E0; subst k0.
      destruct (String.eqb k k'); reflexivity.
    + destruct (String.eqb k k0) eqn:E1.
      * apply String.eqb_eq in E1; subst k0.
        rewrite String.eqb_sym in E0. rewrite E0. reflexivity.
      * exact IH.
Qed.

Lemma get_set_same k v m : JsMap.get k (JsMap.set k v m) = Some v.
Proof. rewrite get_set, String.eqb_refl. reflexivity. Qed.

Lemma get_set_other k k' v m :
  k <> k' -> JsMap.get k (JsMap.set k' v m) = JsMap.get k m.
Proof.
  intros N. rewrite get_set.
  destruct (String.eqb k k') eqn:E; [|reflexivity].
  apply String.eqb_eq in E. contradiction.
Qed.

Lemma has_set k k' v m :
  JsMap.has k (JsMap.set k' v m) = String.eqb k k' || JsMap.has k m.
Proof.
  unfold JsMap.has. rewrite get_set.
  destruct (String.eqb k k'); reflexivity.
Qed.

Lemma get_delete k k' m :
  JsMap.get k (JsMap.delete k' m) =
  if String.eqb k k' then None else JsMap.get k m.
Proof.
  induction m as [|[k0 v0] m IH]; simpl.
  - destruct (String.eqb k k'); reflexivity.
  - destruct (String.eqb k' k0) eqn:E0; simpl.
    + apply String.eqb_eq in E0; subst k0. rewrite IH.
      destruct (String.eqb k k'); reflexivity.
    + rewrite IH. destruct (String.eqb k k0) eqn:E1; [|reflexivity].
      apply String.eqb_eq in E1; subst k0.
      rewrite String.eqb_sym in E0. rewrite E0. reflexivity.
Qed.

Lemma has_delete k k' m :
  JsMap.has k (JsMap.delete k' m) =
  negb (String.eqb k k') && JsMap.has k m.
Proof.
  unfold JsMap.has. rewrite get_delete.
  destruct (String.eqb k k'); reflexivity.
Qed.

Lemma delete_absent k m :
  JsMap.has k m = false -> JsMap.delete k m = m.
Proof.
  unfold JsMap.has.
  induction m as [|[k0 v0] m IH]; simpl; [reflexivity|].
  destruct (String.eqb k k0); [discriminate|].
  intros H. rewrite IH by exact H. reflexivity.
Qed.

Lemma has_keys k m : JsMap.has k m = true <-> In k (JsMap.keys m).
Proof.
  unfold JsMap.has, JsMap.keys.
  induction m as [|[k0 v0] m IH]; simpl.
  - split; [discriminate | contradiction].
  - destruct (String.eqb k k0) eqn:E.
    + apply String.eqb_eq in E. subst. split; auto.
    + apply String.eqb_neq in E. rewrite IH. split; auto.
      intros [H|H]; [congruence | exact H].
Qed.

Lemma get_keys k v m : JsMap.get k m = Some v -> In k (JsMap.keys m).
Proof.
  intros H. apply has_keys. unfold JsMap.has. rewrite H. reflexivity.
Qed.

Lemma keys_set_present k v m :
  JsMap.has k m = true -> JsMap.keys (JsMap.set k v m) = JsMap.keys m.
Proof.
  unfold JsMap.has, JsMap.keys.
  induction m as [|[k0 v0] m IH]; simpl; [discriminate|].
  destruct (String.eqb k k0) eqn:E; simpl.
  - apply String.eqb_eq in E. subst. reflexivity.
  - intros H. rewrite IH by exact H. reflexivity.
Qed.
End JsMapFacts.

Section JsSetFacts.
Implicit Types (s : JsSet.t) (k : string).

Lemma set_has_In k s : JsSet.has k s = true <-> In k s.
Proof.
  induction s as [|k0 s IH]; simpl.
  - split; [discriminate | contradiction].
  - rewrite orb_true_iff, IH, String.eqb_eq. split.
    + intros [H|H]; [left; symmetry; exact H | right; exact H].
    + intros [H|H]; [left; symmetry; exact H | right; exact H].
Qed.

Lemma set_delete_In k k' s :
  In k (JsSet.delete k' s) <-> In k s /\ k <> k'.
Proof.
  induction s as [|k0 s IH]; simpl.
  - tauto.
  - destruct (String.eqb k' k0) eqn:E; simpl.
    + apply String.eqb_eq in E. subst k0. rewrite IH.
      split; [tauto|]. intros [[H|H] N]; [congruence | tauto].
    + apply String.eqb_neq in E. rewrite IH.
      split; [|tauto]. intros [H|H]; [subst; split; auto | tauto].
Qed.

Lemma set_has_delete k s : JsSet.has k (JsSet.delete k s) = false.
Proof.
  destruct (JsSet.has k (JsSet.delete k s)) eqn:E; [|reflexivity].
  apply set_has_In, set_delete_In in E. destruct E as [_ N].
  contradiction N. reflexivity.
Qed.

Lemma set_delete_NoDup k s : NoDup s -> NoDup (JsSet.delete k s).
Proof.
  induction 1 as [|k0 s Hn Hd IH]; simpl; [constructor|].
  destruct (String.eqb k k0); [exact IH|].
  constructor; [|exact IH].
  intros Hin. apply set_delete_In in Hin. tauto.
Qed.

Lemma set_add_NoDup k s : NoDup s -> NoDup (JsSet.add k s).
Proof.
  intros Hd. unfold JsSet.add.
  destruct (JsSet.has k s) eqn:E; [exact Hd|].
  apply NoDup_app; [exact Hd | repeat constructor; simpl; tauto |].
  intros x Hx [Hk|[]]. subst x.
  apply set_has_In in Hx. congruence.
Qed.

Lemma set_add_In k k' s : In k (JsSet.add k' s) <-> k = k' \/ In k s.
Proof.
  unfold JsSet.add. destruct (JsSet.has k' s) eqn:E.
  - apply set_has_In in E. split; [tauto|].
    intros [H|H]; [subst; exact E | exact H].
  - rewrite in_app_iff. simpl. split.
    + intros [H|[H|[]]]; [right; exact H | left; symmetry; exact H].
    + intros [H|H]; [right; left; symmetry; exact H | left; exact H].
Qed.
End JsSetFacts.

Section StringFacts.

Lemma upper_ascii_idem c : upper_ascii (upper_ascii c) = upper_ascii c.
Proof. destruct c as [[] [] [] [] [] [] [] []]; reflexivity. Qed.

Lemma upper_ascii_base36 c :
  is_base36_digit c = true -> is_upper_alnum (upper_ascii c) = true.
Proof.
  destruct c as [[] [] [] [] [] [] [] []];
    vm_compute; intros H; first [reflexivity | discriminate H].
Qed.

Lemma toUpperCase_idem s : toUpperCase (toUpperCase s) = toUpperCase s.
Proof.
  induction s as [|c s IH]; simpl; [reflexivity|].
  rewrite upper_ascii_idem, IH. reflexivity.
Qed.

Lemma toUpperCase_length s :
  String.length (toUpperCase s) = String.length s.
Proof. induction s as [|c s IH]; simpl; congruence. Qed.

Lemma toUpperCase_base36 s :
  string_forall is_base36_digit s = true ->
  string_forall is_upper_alnum (toUpperCase s) = true.
Proof.
  induction s as [|c s IH]; simpl; [reflexivity|].
  rewrite andb_true_iff. intros [Hc Hs].
  rewrite upper_ascii_base36 by exact Hc. simpl. apply IH, Hs.
Qed.

Lemma substring_length_le n m s : String.length (substring n m s) <= m.
Proof.
  revert n m. induction s as [|c s IH]; intros [|n] [|m]; simpl;
    try lia.
  - specialize (IH 0 m). lia.
  - apply (IH n 0).
  - apply (IH n (S m)).
Qed.

Lemma substring_length_full n m s :
  n + m <= String.length s -> String.length (substring n m s) = m.
Proof.
  revert n m. induction s as [|c s IH]; intros [|n] [|m]; simpl;
    try lia.
  - intros H. rewrite (IH 0 m) by (simpl; lia). reflexivity.
  - intros H. apply (IH n 0). lia.
  - intros H. apply (IH n (S m)). lia.
Qed.

Lemma substring_forall p n m s :
  string_forall p s = true -> string_forall p (substring n m s) = true.
Proof.
  revert n m. induction s as [|c s IH]; intros [|n] [|m]; simpl;
    try reflexivity.
  - rewrite !andb_true_iff. intros [Hc Hs]. split; [exact Hc|].
    apply IH, Hs.
  - rewrite andb_true_iff. intros [_ Hs]. apply (IH n 0), Hs.
  - rewrite andb_true_iff. intros [_ Hs]. apply (IH n (S m)), Hs.
Qed.

Lemma falsy_nonempty s : s <> EmptyString -> falsy (Some s) = false.
Proof.
  intros N. simpl. apply String.eqb_neq. exact N.
Qed.

Lemma random_rendering_inv r :
  is_random_rendering r = true ->
  r = "0" \/
  exists ds, r = String "0" (String "." ds) /\
             string_forall is_base36_digit ds = true.
Proof.
  destruct r as [|a r]; [discriminate|].
  destruct a as [[] [] [] [] [] [] [] []]; try discriminate.
  destruct r as [|b r]; [intros _; left; reflexivity|].
  destruct b as [[] [] [] [] [] [] [] []]; try discriminate.
  destruct r as [|d ds]; [discriminate|].
  intros H. right. exists (String d ds). split; [reflexivity | exact H].
Qed.

(** The generated id is built from the digits that follow [0.] . *)
Lemma newRoomId_alnum r :
  is_random_rendering r = true ->
  string_forall is_upper_alnum (newRoomId r) = true.
Proof.
  intros H. destruct (random_rendering_inv r H) as [->|[ds [-> Hds]]].
  - reflexivity.
  - unfold newRoomId, js_substring. apply toUpperCase_base36.
    change (substring 2 (10 - 2) (String "0" (String "." ds)))
      with (substring 0 8 ds).
    apply substring_forall, Hds.
Qed.
End StringFacts.

(* ===================================================================== *)
(** ** Requests the handlers reject *)
(* ===================================================================== *)

(** C10, as the claim has it, fails: a [chat-message] that arrives
    with no payload misses every required field, yet its listener does
    not return having done nothing: it throws a [TypeError] at the
    destructuring, before the guard is reached, and nothing catches
    it. *)
Lemma request_without_payload_throws :
  lacks_required_field (without_payload ev_chat_message js_undefined)
  = true /\
  receive socketManager hub_xy "X"
    (without_payload ev_chat_message js_undefined)
  = Threw TypeError /\
  receive socketManager hub_xy "X"
    (without_payload ev_chat_message js_undefined)
  <> Returned hub_xy [].
Proof. split; [reflexivity|]. split; [reflexivity | discriminate]. Qed.

(** C10 (amended): a [code-change], [language-change] or
    [chat-message] that arrives with a payload object lacking a
    required field (the room id for the three of them, the language
    for [language-change], the message or the user name for
    [chat-message]; absent or empty) leaves the whole hub as it was
    and sends nothing to anyone: the listener returns at its guard,
    without throwing and before any call to the manager, whatever the
    manager is. *)
Theorem malformed_request_is_noop :
  forall (sm : Manager) (h : Hub) (sid : string) (ev : InEvent),
    missing_required_field ev = true ->
    handle sm h sid ev = (h, []) /\
    receive sm h sid (with_payload ev) = Returned h [].
Proof.
  intros sm h sid ev Hmiss.
  assert (Hh : handle sm h sid ev = (h, [])).
  { destruct ev as [rn n rd db | rid n | rid c uid | rid lang
                   | rid m n uuid now | rid p n | ];
      simpl in Hmiss; try discriminate Hmiss; simpl.
    - unfold on_code_change. rewrite Hmiss. reflexivity.
    - unfold on_language_change. rewrite Hmiss. reflexivity.
    - unfold on_chat_message. rewrite Hmiss. reflexivity. }
  split; [exact Hh|].
  unfold receive. rewrite Hh. reflexivity.
Qed.

Lemma malformed_request_is_noop_witness :
  missing_required_field
    (chat_message (Some "ABCD1234") (Some "hi") None "id-1" "now") = true /\
  receive socketManager hub_xy "X"
    (with_payload
       (chat_message (Some "ABCD1234") (Some "hi") None "id-1" "now"))
  = Returned hub_xy [].
Proof.
  split; [reflexivity|].
  apply (malformed_request_is_noop socketManager hub_xy "X"). reflexivity.
Defined.

(** C2: a [join-room] whose room id, once put in upper case, is not in
    the registry gets the [join-error] "Room not found!" sent to the
    requester, and the hub (registry and subscriptions) is unchanged:
    no room is created, no participant is added.  The handler returns
    right after the lookup, whatever the manager is. *)
Theorem join_unknown_room_is_rejected :
  forall (sm : Manager) (h : Hub) (sid roomId name : string),
    getRoom sm (toUpperCase roomId) h = None ->
    handle sm h sid (join_room roomId name)
    = (h, [(sid, join_error "Room not found!")]).
Proof.
  intros sm h sid roomId name Hnone. simpl. unfold on_join_room.
  rewrite Hnone. reflexivity.
Qed.

Lemma join_unknown_room_is_rejected_witness :
  getRoom socketManager (toUpperCase "zzzz9999") hub_xy = None /\
  handle socketManager hub_xy "Z" (join_room "zzzz9999" "eve")
  = (hub_xy, [("Z", join_error "Room not found!")]).
Proof.
  split; [reflexivity|].
  apply (join_unknown_room_is_rejected socketManager hub_xy "Z"
           "zzzz9999" "eve").
  reflexivity.
Defined.

(* ===================================================================== *)
(** ** Creating a room *)
(* ===================================================================== *)

(** C5, as the claim has it, fails: when the catalog write is rejected
    for a creation on the empty hub, the requester is told
    [join-error], but the room is not in the registry afterwards. *)
Lemma failed_catalog_write_leaves_no_room :
  snd (handle socketManager initial_hub "X"
         (create_room "demo" "ann" "0.abcd1234xyz" DbRejected))
  = [("X", join_error "Failed to create room")] /\
  JsMap.get (newRoomId "0.abcd1234xyz")
    (rooms (fst (handle socketManager initial_hub "X"
                   (create_room "demo" "ann" "0.abcd1234xyz" DbRejected))))
  = None.
Proof. split; reflexivity. Qed.

(** C5 (amended): when the room-catalog write fails during
    [create-room], the requester receives exactly one message, the
    [join-error] "Failed to create room", and the hub state is exactly
    what it was before the request: nothing is corrupted, and no
    in-memory room is installed either (the write comes first, the
    failure ends the creation before any call to the manager). *)
Theorem failed_catalog_write_aborts_creation :
  forall (sm : Manager) (h : Hub) (sid roomName name rendering : string),
    handle sm h sid (create_room roomName name rendering DbRejected)
    = (h, [(sid, join_error "Failed to create room")]).
Proof. intros. reflexivity. Qed.

Lemma newRoomId_length_le rendering :
  String.length (newRoomId rendering) <= 8.
Proof.
  unfold newRoomId, js_substring.
  rewrite toUpperCase_length. apply substring_length_le.
Qed.

(** C4, as the claim has it, fails.  [Math.random()] can return [0.5],
    printed [0.i] in base 36, and the generated id is then the single
    character [I], not an 8-character token.  And when the generated
    id is already in the registry (here [ABCD1234], the room of X and
    Y), no other id is drawn: with the catalog write accepted the
    requester is put into the existing room and [room-created] reports
    that id; with the write rejected the creation is given up. *)
Lemma room_id_short_or_taken :
  is_random_rendering "0.i" = true /\
  newRoomId "0.i" = "I" /\
  String.length (newRoomId "0.i") <> 8 /\
  JsMap.has (newRoomId "0.abcd1234xyz") (rooms hub_xy) = true /\
  snd (handle socketManager hub_xy "Z"
         (create_room "other" "eve" "0.abcd1234xyz" DbSaved))
  = [ ("X", users_update [mkParticipant "X" "ann"; mkParticipant "Y" "bob";
                          mkParticipant "Z" "eve"]);
      ("Y", users_update [mkParticipant "X" "ann"; mkParticipant "Y" "bob";
                          mkParticipant "Z" "eve"]);
      ("Z", users_update [mkParticipant "X" "ann"; mkParticipant "Y" "bob";
                          mkParticipant "Z" "eve"]);
      ("Z", room_created "ABCD1234"
              [mkParticipant "X" "ann"; mkParticipant "Y" "bob";
               mkParticipant "Z" "eve"]) ] /\
  snd (handle socketManager hub_xy "Z"
         (create_room "other" "eve" "0.abcd1234xyz" DbRejected))
  = [("Z", join_error "Failed to create room")].
Proof.
  split; [reflexivity|]. split; [reflexivity|].
  split; [simpl; discriminate|]. repeat split.
Qed.

(** C4 (amended): every room id generated by [create-room] is an
    upper-case base-36 token, of exactly 8 characters when the random
    number prints with 8 digits or more after [0.]; the handler does
    not look the id up in the registry and never draws a second one:
    once the catalog write has succeeded, the generated id is the one
    the manager is asked to join and the one reported in
    [room-created], the last message of the handler, whatever the
    registry held before and whatever the manager is. *)
Theorem generated_room_id :
  forall (sm : Manager) (h : Hub) (sid roomName name rendering : string),
    is_random_rendering rendering = true ->
    let rid := newRoomId rendering in
    let joined := joinRoom sm rid sid name (socket_join rid sid h) in
    (10 <= String.length rendering -> String.length rid = 8) /\
    toUpperCase rid = rid /\
    string_forall is_upper_alnum rid = true /\
    handle sm h sid (create_room roomName name rendering DbSaved)
    = (fst joined,
       snd joined
       ++ [(sid, room_created rid (snapshot (getRoom sm rid (fst joined))))]).
Proof.
  intros sm h sid roomName name rendering Hr rid joined.
  split; [|split; [|split]].
  - intros Hlen. unfold rid, newRoomId, js_substring.
    rewrite toUpperCase_length. apply substring_length_full.
    simpl. lia.
  - unfold rid, newRoomId. apply toUpperCase_idem.
  - apply newRoomId_alnum, Hr.
  - simpl. unfold on_create_room. fold rid. fold joined.
    destruct joined as [h2 out]. reflexivity.
Qed.

Lemma generated_room_id_witness :
  is_random_rendering "0.abcd1234xyz" = true /\
  newRoomId "0.abcd1234xyz" = "ABCD1234" /\
  String.length (newRoomId "0.abcd1234xyz") = 8.
Proof.
  split; [reflexivity|]. split; [reflexivity|].
  apply (generated_room_id socketManager initial_hub "X" "demo" "ann"
           "0.abcd1234xyz");
    [reflexivity | simpl; lia].
Defined.

(* ===================================================================== *)
(** ** The disconnect scan *)
(* ===================================================================== *)

Section DisconnectScan.
Variable sid : string.

Lemma disconnect_visit_eq acc rid :
  disconnect_visit socketManager sid acc rid
  = match JsMap.get rid (rooms (fst acc)) with
    | Some room =>
        if JsMap.has sid (users room)
        then let (h', out) := SocketManager.leaveRoom rid sid (fst acc) in
             (h', snd acc ++ out)
        else acc
    | None => acc
    end.
Proof. reflexivity. Qed.

Lemma on_disconnect_eq h :
  on_disconnect socketManager h sid
  = fold_left (disconnect_visit socketManager sid)
              (JsMap.keys (rooms h)) (socket_drop sid h, []).
Proof. reflexivity. Qed.

Lemma room_without_has r :
  JsMap.has sid (users (SocketManager.room_without sid r)) = false.
Proof.
  simpl. rewrite has_delete, String.eqb_refl. reflexivity.
Qed.

Lemma visit_get acc k rid :
  JsMap.get rid (rooms (fst (disconnect_visit socketManager sid acc k)))
  = option_map (scanned sid rid [k]) (JsMap.get rid (rooms (fst acc))).
Proof.
  rewrite disconnect_visit_eq. unfold scanned. simpl. rewrite orb_false_r.
  destruct (String.eqb rid k) eqn:Ek.
  - apply String.eqb_eq in Ek. subst k.
    destruct (JsMap.get rid (rooms (fst acc))) as [r|] eqn:Eg;
      [|simpl; rewrite Eg; reflexivity].
    destruct (JsMap.has sid (users r)) eqn:Eh; simpl.
    + unfold SocketManager.leaveRoom. rewrite Eg, Eh. simpl.
      rewrite get_set_same. reflexivity.
    + rewrite ?Eh. exact Eg.
  - simpl.
    assert (Hid : option_map (fun r => r)
                    (JsMap.get rid (rooms (fst acc)))
                  = JsMap.get rid (rooms (fst acc)))
      by (destruct (JsMap.get rid (rooms (fst acc))); reflexivity).
    rewrite Hid.
    destruct (JsMap.get k (rooms (fst acc))) as [r|] eqn:Eg;
      [|reflexivity].
    destruct (JsMap.has sid (users r)) eqn:Eh; [|reflexivity].
    unfold SocketManager.leaveRoom. rewrite Eg, Eh. simpl.
    rewrite get_set, Ek. reflexivity.
Qed.

Lemma scan_get ks : forall acc rid,
  JsMap.get rid
    (rooms (fst (fold_left (disconnect_visit socketManager sid) ks acc)))
  = option_map (scanned sid rid ks) (JsMap.get rid (rooms (fst acc))).
Proof.
  induction ks as [|k ks IH]; intros acc rid; simpl fold_left.
  - unfold scanned. simpl.
    destruct (JsMap.get rid (rooms (fst acc))); reflexivity.
  - rewrite IH, visit_get.
    destruct (JsMap.get rid (rooms (fst acc))) as [r|]; [|reflexivity].
    simpl. f_equal. unfold scanned. simpl. rewrite orb_false_r.
    destruct (JsMap.has sid (users r)) eqn:Eh.
    + destruct (String.eqb rid k); simpl.
      * rewrite has_delete, String.eqb_refl. simpl.
        rewrite andb_false_r. reflexivity.
      * rewrite Eh. reflexivity.
    + rewrite !andb_false_r. rewrite Eh, andb_false_r. reflexivity.
Qed.

Lemma existsb_key (rid : string) ks :
  In rid ks -> existsb (String.eqb rid) ks = true.
Proof.
  intros H. apply existsb_exists. exists rid.
  split; [exact H | apply String.eqb_refl].
Qed.

(** The room-wise effect of the [disconnect] handler. *)
Lemma disconnect_get h rid :
  JsMap.get rid (rooms (fst (on_disconnect socketManager h sid)))
  = option_map (fun r => if JsMap.has sid (users r)
                         then SocketManager.room_without sid r else r)
               (JsMap.get rid (rooms h)).
Proof.
  rewrite on_disconnect_eq, scan_get. simpl.
  destruct (JsMap.get rid (rooms h)) as [r|] eqn:Eg; [|reflexivity].
  simpl. unfold scanned.
  rewrite (existsb_key _ _ (get_keys _ _ Eg)). reflexivity.
Qed.
End DisconnectScan.

(* ===================================================================== *)
(** ** Rooms stay in the registry *)
(* ===================================================================== *)

Lemma step_keeps_room h sid i rid :
  JsMap.has rid (rooms h) = true ->
  JsMap.has rid (rooms (fst (hub_step h sid i))) = true.
Proof.
  intros H.
  destruct i as [ev|ev]; destruct ev.
  7: { simpl. unfold JsMap.has in *. rewrite disconnect_get.
       destruct (JsMap.get rid (rooms h)); [reflexivity | discriminate]. }
  all: unfold_handlers; simpl; handler_cases; simpl;
    rewrite ?has_set, ?H, ?orb_true_r; try reflexivity; exact H.
Qed.

Lemma run_cons h sid i evs :
  run h ((sid, i) :: evs)
  = (fst (run (fst (hub_step h sid i)) evs),
     snd (hub_step h sid i) ++ snd (run (fst (hub_step h sid i)) evs)).
Proof.
  simpl. destruct (hub_step h sid i) as [h1 out1]. simpl.
  destruct (run h1 evs) as [h2 out2]. reflexivity.
Qed.

Lemma run_keeps_room evs : forall h rid,
  JsMap.has rid (rooms h) = true ->
  JsMap.has rid (rooms (fst (run h evs))) = true.
Proof.
  induction evs as [|[sid i] evs IH]; intros h rid H; [exact H|].
  rewrite run_cons. simpl. apply IH, step_keeps_room, H.
Qed.

Lemma step_keys_of_disconnect h sid :
  forall rid, JsMap.has rid (rooms (fst (on_disconnect socketManager h sid)))
              = JsMap.has rid (rooms h).
Proof.
  intros rid. unfold JsMap.has. rewrite disconnect_get.
  destruct (JsMap.get rid (rooms h)); reflexivity.
Qed.

(** C6: a room that is in the registry stays there.  After any single
    operation on the hub (the registered handlers and the signalling
    relay alike) and after any sequence of them, the room is still
    present; in particular when a member disconnects, the last one
    included: the [disconnect] handler keeps the room with its document
    and its language, and only takes the connection out of the room's
    user map. *)
Theorem rooms_are_never_deleted :
  forall (h : Hub) (sid : string) (i : Inbound)
         (evs : list (string * Inbound)) (rid : string) (r : RoomState),
    JsMap.get rid (rooms h) = Some r ->
    JsMap.has rid (rooms (fst (hub_step h sid i))) = true /\
    JsMap.has rid (rooms (fst (run h evs))) = true /\
    exists r',
      JsMap.get rid (rooms (fst (handle socketManager h sid disconnect)))
      = Some r' /\
      code r' = code r /\
      language r' = language r /\
      users r' = JsMap.delete sid (users r).
Proof.
  intros h sid i evs rid r Hget.
  assert (Hhas : JsMap.has rid (rooms h) = true)
    by (unfold JsMap.has; rewrite Hget; reflexivity).
  split; [apply step_keeps_room, Hhas|].
  split; [apply run_keeps_room, Hhas|].
  simpl. rewrite disconnect_get, Hget. simpl.
  destruct (JsMap.has sid (users r)) eqn:Eh.
  - eexists. split; [reflexivity|]. simpl. auto.
  - exists r. split; [reflexivity|].
    rewrite delete_absent by exact Eh. auto.
Qed.

Lemma rooms_are_never_deleted_witness :
  JsMap.get "ABCD1234" (rooms hub_xy) = Some room_xy /\
  JsMap.has "ABCD1234"
    (rooms (fst (run hub_xy [("X", Registered disconnect);
                             ("Y", Registered disconnect)]))) = true.
Proof.
  split; [reflexivity|].
  apply (rooms_are_never_deleted hub_xy "X" (Registered disconnect)
           [("X", Registered disconnect); ("Y", Registered disconnect)]
           "ABCD1234" (r := room_xy)).
  reflexivity.
Defined.

(* ===================================================================== *)
(** ** The shared document *)
(* ===================================================================== *)

Lemma broadcast_In r ev x t e :
  In (t, e) (SocketManager.broadcast r ev x) <->
  e = ev /\ In t (JsMap.keys (users r)) /\
  match x with Some u => t <> u | None => True end.
Proof.
  unfold SocketManager.broadcast. rewrite in_map_iff. split.
  - intros [k [Hk Hin]]. inversion Hk; subst.
    apply filter_In in Hin. destruct Hin as [Hin Hf].
    split; [reflexivity|]. split; [exact Hin|].
    destruct x as [u|]; [|exact I].
    intros ->. rewrite String.eqb_refl in Hf. discriminate.
  - intros [-> [Hin Hx]]. exists t. split; [reflexivity|].
    apply filter_In. split; [exact Hin|].
    destruct x as [u|]; [|reflexivity].
    apply negb_true_iff, String.eqb_neq, Hx.
Qed.

(** What one operation does to the document of an existing room. *)
Lemma step_room_code h sid i rid :
  rid <> EmptyString ->
  JsMap.has rid (rooms h) = true ->
  room_code (fst (hub_step h sid i)) rid
  = match code_written rid i with
    | Some c => Some c
    | None => room_code h rid
    end.
Proof.
  intros Hne H. unfold room_code.
  destruct i as [ev|ev]; destruct ev.
  7: { simpl. rewrite disconnect_get.
       destruct (JsMap.get rid (rooms h)) as [r|]; [|reflexivity].
       simpl. destruct (JsMap.has sid (users r)); reflexivity. }
  all: unfold_handlers; simpl; handler_cases; simpl;
    rewrite ?get_set; try reflexivity.
  all: unfold JsMap.has in H.
  all: repeat match goal with
       | |- context [String.eqb ?a ?b] =>
           let E := fresh "E" in
           destruct (String.eqb a b) eqn:E;
           [apply String.eqb_eq in E | apply String.eqb_neq in E]
       end; subst; simpl; try reflexivity; try congruence.
  all: try (unfold SocketManager.getRoom in *; congruence).
  all: try (match goal with
            | Hg : JsMap.get ?k _ = _ |- _ => rewrite Hg in *
            end; simpl; try reflexivity; try discriminate).
  all: exfalso; simpl in *;
    match goal with
    | Hf : String.eqb _ EmptyString = true |- _ =>
        apply String.eqb_eq in Hf; contradiction
    end.
Qed.

Lemma run_room_code evs : forall h rid,
  rid <> EmptyString ->
  JsMap.has rid (rooms h) = true ->
  room_code (fst (run h evs)) rid
  = match last_code_change rid evs with
    | Some c => Some c
    | None => room_code h rid
    end.
Proof.
  induction evs as [|[sid i] evs IH]; intros h rid Hne H; [reflexivity|].
  rewrite run_cons. simpl fst. simpl last_code_change.
  rewrite IH by (try apply step_keeps_room; assumption).
  destruct (last_code_change rid evs); [reflexivity|].
  apply step_room_code; assumption.
Qed.

(** The [code-change] handler never looks at the connection the event
    came from: two connections sending the same payload get the same
    treatment. *)
Lemma code_change_ignores_sender sm h A B roomId c uid :
  handle sm h A (code_change roomId c uid)
  = handle sm h B (code_change roomId c uid).
Proof. reflexivity. Qed.

(** Hence no manager can make the handler spare every sender: in the
    room of X and Y, the same payload sent by X and by Y is answered
    the same way, so either Y misses X's edit or Y gets its own back. *)
Lemma no_manager_spares_every_sender :
  forall sm : Manager, ~ spares_every_sender sm.
Proof.
  intros sm H.
  assert (Hg : JsMap.get "ABCD1234" (rooms hub_xy) = Some room_xy)
    by reflexivity.
  destruct (H hub_xy "X" "ABCD1234" "print(1)" "X" room_xy Hg)
    as [Hreach _].
  destruct (H hub_xy "Y" "ABCD1234" "print(1)" "X" room_xy Hg)
    as [_ Hnever].
  destruct (Hreach "Y") as [e He].
  - right. left. reflexivity.
  - discriminate.
  - apply (Hnever e). exact He.
Qed.

(** A client drops the update that carries its own id. *)
Lemma own_update_is_ignored (c : Client.State) (code' : string) :
  Client.onCodeUpdate code' (Client.self c) c = c.
Proof.
  unfold Client.onCodeUpdate. rewrite String.eqb_refl. reflexivity.
Qed.

(** C1, as the claim has it, fails: X sends a [code-change] for the
    room [ABCD1234] of X and Y whose [userId] field names Y; the
    [code-update] is echoed back to X, and Y, the other member, does
    not get it. *)
Lemma code_change_echo_to_sender :
  let out := snd (handle socketManager hub_xy "X"
                    (code_change (Some "ABCD1234") "print(1)" "Y")) in
  In ("X", code_update "ABCD1234" "print(1)" "Y") out /\
  ~ In ("Y", code_update "ABCD1234" "print(1)" "Y") out.
Proof.
  vm_compute. split; [left; reflexivity|].
  intros [H|[]]. discriminate H.
Qed.

(** C1 (amended): for every room and every [code-change] processed by
    the hub that names the room by its (non-empty) registry key, the
    hub sets the room's stored code to the payload's code (the whole
    buffer is replaced) and leaves the membership alone, then delivers
    a [code-update] to every member of the room other than the
    connection named by the payload's [userId], and to nobody else: in
    particular never to that connection, which is the sender itself
    whenever the client fills [userId] with its own socket id.  After
    any sequence of events, the room's stored document is the payload
    of the most recently processed [code-change] for that room (the
    document it had before when there was none). *)
Theorem code_change_last_write_wins :
  forall (h : Hub) (A rid c uid : string) (r : RoomState)
         (evs : list (string * Inbound)),
    rid <> EmptyString ->
    JsMap.get rid (rooms h) = Some r ->
    let res := handle socketManager h A (code_change (Some rid) c uid) in
    room_code (fst res) rid = Some c /\
    room_members (fst res) rid = Some (JsMap.keys (users r)) /\
    (forall m, In m (JsMap.keys (users r)) -> m <> uid ->
               In (m, code_update rid c uid) (snd res)) /\
    (forall e, ~ In (uid, e) (snd res)) /\
    (forall t e, In (t, e) (snd res) ->
                 e = code_update rid c uid /\ In t (JsMap.keys (users r))) /\
    room_code (fst (run h evs)) rid
    = match last_code_change rid evs with
      | Some c' => Some c'
      | None => Some (code r)
      end.
Proof.
  intros h A rid c uid r evs Hne Hget res.
  assert (Hres : res = (with_rooms h
                          (JsMap.set rid
                             (mkRoom c (language r) (users r) (peers r))
                             (rooms h)),
                        SocketManager.broadcast
                          (mkRoom c (language r) (users r) (peers r))
                          (code_update rid c uid) (Some uid))).
  { unfold res. simpl. unfold on_code_change.
    rewrite (falsy_nonempty Hne). manager_methods.
    unfold SocketManager.updateCode. rewrite Hget. reflexivity. }
  rewrite Hres. simpl fst. simpl snd.
  unfold room_code, room_members. simpl rooms.
  rewrite get_set_same. simpl.
  split; [reflexivity|]. split; [reflexivity|].
  split; [|split; [|split]].
  - intros m Hin Hm. apply broadcast_In. simpl. auto.
  - intros e Hin. apply broadcast_In in Hin.
    destruct Hin as [_ [_ Hu]]. apply Hu. reflexivity.
  - intros t e Hin. apply broadcast_In in Hin.
    destruct Hin as [He [Hin _]]. split; assumption.
  - assert (Hhas : JsMap.has rid (rooms h) = true)
      by (unfold JsMap.has; rewrite Hget; reflexivity).
    pose proof (run_room_code evs h Hne Hhas) as Hrun.
    unfold room_code in Hrun. rewrite Hget in Hrun. exact Hrun.
Qed.

Lemma code_change_last_write_wins_witness :
  "ABCD1234" <> EmptyString /\
  JsMap.get "ABCD1234" (rooms hub_xy) = Some room_xy /\
  snd (handle socketManager hub_xy "X"
         (code_change (Some "ABCD1234") "print(1)" "X"))
  = [("Y", code_update "ABCD1234" "print(1)" "X")] /\
  room_code
    (fst (run hub_xy
            [("X", Registered (code_change (Some "ABCD1234") "print(1)" "X"));
             ("Y", Registered (language_change (Some "ABCD1234")
                                               (Some "python")));
             ("Y", Registered (code_change (Some "ABCD1234") "print(2)" "Y"));
             ("X", Registered disconnect)]))
    "ABCD1234"
  = Some "print(2)".
Proof.
  split; [discriminate|]. split; [reflexivity|]. split; [reflexivity|].
  apply (code_change_last_write_wins hub_xy "X" "print(1)" "X"
           (rid := "ABCD1234") (r := room_xy));
    [discriminate | reflexivity].
Defined.

(* ===================================================================== *)
(** ** Leaving a call by disconnecting *)
(* ===================================================================== *)

Section LeftCallCount.
Variables p sid : string.

Lemma left_call_count_app out1 out2 :
  left_call_count p sid (out1 ++ out2)
  = left_call_count p sid out1 + left_call_count p sid out2.
Proof.
  unfold left_call_count. rewrite filter_app, length_app. reflexivity.
Qed.

Lemma left_call_count_presence r l x :
  left_call_count p sid
    (SocketManager.broadcast r (users_update l) x) = 0.
Proof.
  unfold left_call_count, SocketManager.broadcast.
  induction (filter _ (JsMap.keys (users r))) as [|k ks IH];
    [reflexivity|].
  simpl. unfold is_left_call_for at 1. simpl.
  rewrite andb_false_r. exact IH.
Qed.

Lemma left_call_count_absent (l : list string) :
  ~ In p l ->
  left_call_count p sid (map (fun q => (q, user_left_call sid)) l) = 0.
Proof.
  unfold left_call_count.
  induction l as [|q l IH]; intros Hn; [reflexivity|].
  simpl. unfold is_left_call_for at 1. simpl.
  destruct (String.eqb q p) eqn:E.
  - apply String.eqb_eq in E. subst q. contradiction Hn. left; reflexivity.
  - simpl. apply IH. intros Hin. apply Hn. right; exact Hin.
Qed.

Lemma left_call_count_once (l : list string) :
  NoDup l -> In p l ->
  left_call_count p sid (map (fun q => (q, user_left_call sid)) l) = 1.
Proof.
  induction 1 as [|q l Hq Hd IH]; intros Hin; [contradiction|].
  unfold left_call_count. simpl. unfold is_left_call_for at 1. simpl.
  destruct (String.eqb q p) eqn:E.
  - apply String.eqb_eq in E. subst q. rewrite String.eqb_refl. simpl.
    f_equal. apply left_call_count_absent, Hq.
  - simpl. apply String.eqb_neq in E.
    destruct Hin as [Hin|Hin]; [contradiction|]. apply IH, Hin.
Qed.
End LeftCallCount.

Section DisconnectEmissions.
Variables sid rid : string.

Lemma visit_elsewhere acc k r :
  k <> rid ->
  JsMap.get rid (rooms (fst acc)) = Some r ->
  JsMap.get rid (rooms (fst (disconnect_visit socketManager sid acc k)))
  = Some r.
Proof.
  intros Hk Hg. rewrite visit_get, Hg. simpl. unfold scanned. simpl.
  assert (E : String.eqb rid k = false)
    by (apply String.eqb_neq; congruence).
  rewrite E. reflexivity.
Qed.

Lemma visit_out acc k :
  exists o, snd (disconnect_visit socketManager sid acc k) = snd acc ++ o.
Proof.
  rewrite disconnect_visit_eq.
  destruct (JsMap.get k (rooms (fst acc))) as [r|];
    [|exists []; rewrite app_nil_r; reflexivity].
  destruct (JsMap.has sid (users r));
    [|exists []; rewrite app_nil_r; reflexivity].
  destruct (SocketManager.leaveRoom k sid (fst acc)) as [h' o].
  exists o. reflexivity.
Qed.

Lemma scan_out ks : forall acc,
  exists o,
    snd (fold_left (disconnect_visit socketManager sid) ks acc)
    = snd acc ++ o.
Proof.
  induction ks as [|k ks IH]; intros acc; simpl.
  - exists []. rewrite app_nil_r. reflexivity.
  - destruct (IH (disconnect_visit socketManager sid acc k)) as [o2 H2].
    destruct (visit_out acc k) as [o1 H1].
    exists (o1 ++ o2). rewrite H2, H1, app_assoc. reflexivity.
Qed.

Lemma visit_here acc r :
  JsMap.get rid (rooms (fst acc)) = Some r ->
  JsMap.has sid (users r) = true ->
  disconnect_visit socketManager sid acc rid
  = (with_rooms (fst acc)
       (JsMap.set rid (SocketManager.room_without sid r)
                  (rooms (fst acc))),
     snd acc ++ SocketManager.leave_emissions sid r).
Proof.
  intros Hg Hh. rewrite disconnect_visit_eq. rewrite Hg, Hh.
  unfold SocketManager.leaveRoom. rewrite Hg, Hh. reflexivity.
Qed.

(** The messages of the room's [leaveRoom] are a block of the
    handler's output. *)
Lemma scan_block ks : forall acc r,
  In rid ks ->
  JsMap.get rid (rooms (fst acc)) = Some r ->
  JsMap.has sid (users r) = true ->
  exists pre post,
    snd (fold_left (disconnect_visit socketManager sid) ks acc)
    = snd acc ++ pre ++ SocketManager.leave_emissions sid r ++ post.
Proof.
  induction ks as [|k ks IH]; intros acc r Hin Hg Hh; [contradiction|].
  simpl fold_left.
  destruct (String.eqb k rid) eqn:E.
  - apply String.eqb_eq in E. subst k.
    rewrite (visit_here acc Hg Hh).
    destruct (scan_out ks
                (with_rooms (fst acc)
                   (JsMap.set rid (SocketManager.room_without sid r)
                              (rooms (fst acc))),
                 snd acc ++ SocketManager.leave_emissions sid r))
      as [post Hpost].
    exists [], post. rewrite Hpost. simpl. rewrite app_assoc. reflexivity.
  - apply String.eqb_neq in E.
    destruct Hin as [Hin|Hin]; [contradiction|].
    destruct (IH (disconnect_visit socketManager sid acc k) r Hin
                 (visit_elsewhere acc E Hg) Hh) as [pre [post H]].
    destruct (visit_out acc k) as [o1 H1].
    exists (o1 ++ pre), post. rewrite H, H1, !app_assoc. reflexivity.
Qed.

(** A scan over rooms that do not hold the connection does nothing. *)
Lemma scan_silent ks : forall acc,
  (forall k r, In k ks -> JsMap.get k (rooms (fst acc)) = Some r ->
               JsMap.has sid (users r) = false) ->
  fold_left (disconnect_visit socketManager sid) ks acc = acc.
Proof.
  induction ks as [|k ks IH]; intros acc Hq; [reflexivity|].
  simpl fold_left.
  assert (Hv : disconnect_visit socketManager sid acc k = acc).
  { rewrite disconnect_visit_eq.
    destruct (JsMap.get k (rooms (fst acc))) as [r|] eqn:Eg;
      [|reflexivity].
    rewrite (Hq k r (or_introl eq_refl) Eg). reflexivity. }
  rewrite Hv. apply IH. intros k' r' Hin. apply Hq. right; exact Hin.
Qed.

(** When the connection is in this room only, the handler sends this
    room's messages and no other. *)
Lemma scan_single ks : forall acc r,
  In rid ks ->
  JsMap.get rid (rooms (fst acc)) = Some r ->
  JsMap.has sid (users r) = true ->
  (forall rid' r', rid' <> rid ->
                   JsMap.get rid' (rooms (fst acc)) = Some r' ->
                   JsMap.has sid (users r') = false) ->
  snd (fold_left (disconnect_visit socketManager sid) ks acc)
  = snd acc ++ SocketManager.leave_emissions sid r.
Proof.
  induction ks as [|k ks IH]; intros acc r Hin Hg Hh Hon; [contradiction|].
  simpl fold_left.
  destruct (String.eqb k rid) eqn:E.
  - apply String.eqb_eq in E. subst k.
    rewrite (visit_here acc Hg Hh).
    rewrite scan_silent; [reflexivity|].
    intros k r0 _. simpl. rewrite get_set.
    destruct (String.eqb k rid) eqn:Ek.
    + intros Heq. inversion Heq. apply room_without_has.
    + apply String.eqb_neq in Ek. apply Hon, Ek.
  - apply String.eqb_neq in E.
    destruct Hin as [Hin|Hin]; [contradiction|].
    assert (Hv : disconnect_visit socketManager sid acc k = acc).
    { rewrite disconnect_visit_eq.
      destruct (JsMap.get k (rooms (fst acc))) as [r0|] eqn:Eg;
        [|reflexivity].
      rewrite (Hon k r0 E Eg). reflexivity. }
    rewrite Hv. apply IH; assumption.
Qed.
End DisconnectEmissions.

Section CallSessionInvariant.

Lemma room_wf_new : room_wf SocketManager.new_room.
Proof. split; [constructor | intros p []]. Qed.

Lemma room_wf_join sid name r :
  room_wf r ->
  room_wf (mkRoom (code r) (language r)
                  (JsMap.set sid (mkParticipant sid name) (users r))
                  (peers r)).
Proof.
  intros [Hd Hin]. split; [exact Hd|]. simpl. intros p Hp.
  rewrite has_set, (Hin p Hp). apply orb_true_r.
Qed.

Lemma room_wf_without sid r :
  room_wf r -> room_wf (SocketManager.room_without sid r).
Proof.
  intros [Hd Hin]. split; simpl.
  - apply set_delete_NoDup, Hd.
  - intros p Hp. apply set_delete_In in Hp. destruct Hp as [Hp Hne].
    rewrite has_delete, (Hin p Hp).
    apply String.eqb_neq in Hne. rewrite Hne. reflexivity.
Qed.

Lemma room_wf_same_members c l r :
  room_wf r -> room_wf (mkRoom c l (users r) (peers r)).
Proof. intros H. exact H. Qed.

Lemma room_wf_join_call sid r :
  JsMap.has sid (users r) = true ->
  room_wf r ->
  room_wf (mkRoom (code r) (language r) (users r)
                  (JsSet.add sid (peers r))).
Proof.
  intros Hs [Hd Hin]. split; simpl.
  - apply set_add_NoDup, Hd.
  - intros p Hp. apply set_add_In in Hp.
    destruct Hp as [->|Hp]; [exact Hs | apply Hin, Hp].
Qed.

Lemma room_wf_leave_call sid r :
  room_wf r ->
  room_wf (mkRoom (code r) (language r) (users r)
                  (JsSet.delete sid (peers r))).
Proof.
  intros [Hd Hin]. split; simpl.
  - apply set_delete_NoDup, Hd.
  - intros p Hp. apply set_delete_In in Hp. apply Hin, Hp.
Qed.

Lemma hub_wf_set h h' rid r :
  hub_wf h -> room_wf r ->
  rooms h' = JsMap.set rid r (rooms h) ->
  hub_wf h'.
Proof.
  intros Hh Hr Heq rid0 r0. rewrite Heq, get_set.
  destruct (String.eqb rid0 rid).
  - intros H. inversion H. subst. exact Hr.
  - apply Hh.
Qed.

Lemma hub_wf_initial : hub_wf initial_hub.
Proof. intros rid r H. discriminate H. Qed.

(** Every operation keeps the CallSession invariant. *)
Lemma step_keeps_wf h sid i :
  hub_wf h -> hub_wf (fst (hub_step h sid i)).
Proof.
  intros Hh.
  destruct i as [ev|ev]; destruct ev.
  7: { simpl. intros rid r. rewrite disconnect_get.
       destruct (JsMap.get rid (rooms h)) as [r0|] eqn:Eg;
         [|discriminate].
       simpl. intros H. inversion H.
       destruct (JsMap.has sid (users r0));
         [apply room_wf_without|]; apply (Hh rid r0 Eg). }
  all: unfold_handlers; simpl; handler_cases; simpl; try exact Hh.
  all: unfold SocketManager.getRoom in *.
  all: eapply hub_wf_set; [exact Hh | | reflexivity].
  all: try match goal with
       | Hg : JsMap.get _ (rooms _) = Some _ |- _ =>
           pose proof (Hh _ _ Hg)
       end.
  all: auto using room_wf_new, room_wf_join, room_wf_without,
         room_wf_same_members, room_wf_join_call, room_wf_leave_call.
  all: apply (room_wf_join _ _ room_wf_new).
Qed.

Lemma run_keeps_wf evs : forall h,
  hub_wf h -> hub_wf (fst (run h evs)).
Proof.
  induction evs as [|[sid i] evs IH]; intros h Hh; [exact Hh|].
  rewrite run_cons. simpl. apply IH, step_keeps_wf, Hh.
Qed.

(** Whatever the hub has processed since it started, the invariant
    holds. *)
Lemma reachable_wf evs : hub_wf (fst (run initial_hub evs)).
Proof. apply run_keeps_wf, hub_wf_initial. Qed.
End CallSessionInvariant.

(** C7: when a connection that is in a room's call disconnects, the
    hub takes it out of the room's membership and out of that call's
    peer set (afterwards it is in neither, every other member and peer
    is kept), and the room's [leaveRoom] sends, as one block of the
    handler's output, exactly one [user-left-call] to each remaining
    peer of that call, none to anyone else, and the updated presence
    list to each remaining member; when the connection is in no other
    room, this block is all the handler sends. *)
Theorem disconnect_leaves_call :
  forall (h : Hub) (sid rid : string) (r : RoomState),
    hub_wf h ->
    JsMap.get rid (rooms h) = Some r ->
    JsSet.has sid (peers r) = true ->
    let res := handle socketManager h sid disconnect in
    let r' := SocketManager.room_without sid r in
    let block := SocketManager.leave_emissions sid r in
    JsMap.get rid (rooms (fst res)) = Some r' /\
    JsMap.has sid (users r') = false /\
    JsSet.has sid (peers r') = false /\
    (forall m, m <> sid -> JsMap.has m (users r') = JsMap.has m (users r)) /\
    (forall p, In p (peers r') <-> In p (peers r) /\ p <> sid) /\
    (exists pre post, snd res = pre ++ block ++ post) /\
    (forall p, In p (peers r') -> left_call_count p sid block = 1) /\
    (forall p, ~ In p (peers r') -> left_call_count p sid block = 0) /\
    (forall m, JsMap.has m (users r') = true ->
               In (m, users_update (JsMap.values (users r'))) block) /\
    (only_in h sid rid -> snd res = block).
Proof.
  intros h sid rid r Hwf Hg Hp res r' block.
  assert (Hu : JsMap.has sid (users r) = true)
    by (apply (Hwf rid r Hg), set_has_In, Hp).
  assert (Hin : In rid (JsMap.keys (rooms h))) by exact (get_keys _ _ Hg).
  assert (Hcount : forall p,
             left_call_count p sid block
             = left_call_count p sid
                 (map (fun q => (q, user_left_call sid)) (peers r'))).
  { intros p. unfold block, SocketManager.leave_emissions.
    rewrite Hp, left_call_count_app, left_call_count_presence.
    apply Nat.add_0_r. }
  split; [|split; [|split; [|split; [|split; [|split;
          [|split; [|split; [|split]]]]]]]].
  - unfold res. simpl. rewrite disconnect_get, Hg. simpl.
    rewrite Hu. reflexivity.
  - apply room_without_has.
  - apply set_has_delete.
  - intros m Hm. unfold r'. simpl. rewrite has_delete.
    apply String.eqb_neq in Hm. rewrite Hm. reflexivity.
  - intros p. apply set_delete_In.
  - unfold res. simpl. rewrite on_disconnect_eq.
    destruct (@scan_block sid rid (JsMap.keys (rooms h))
                (socket_drop sid h, []) r Hin Hg Hu) as [pre [post H]].
    exists pre, post. exact H.
  - intros p Hin'. rewrite Hcount.
    apply left_call_count_once; [|exact Hin'].
    apply set_delete_NoDup. apply (Hwf rid r Hg).
  - intros p Hn. rewrite Hcount. apply left_call_count_absent, Hn.
  - intros m Hm. unfold block, SocketManager.leave_emissions.
    apply in_or_app. right. apply broadcast_In.
    split; [reflexivity|]. split; [|exact I].
    apply has_keys, Hm.
  - intros Honly. unfold res. simpl. rewrite on_disconnect_eq.
    rewrite (@scan_single sid rid (JsMap.keys (rooms h))
               (socket_drop sid h, []) r Hin Hg Hu Honly).
    reflexivity.
Qed.

Lemma disconnect_leaves_call_witness :
  hub_wf hub_call /\
  JsMap.get "ABCD1234" (rooms hub_call) = Some room_call /\
  JsSet.has "X" (peers room_call) = true /\
  left_call_count "Y" "X"
    (SocketManager.leave_emissions "X" room_call) = 1.
Proof.
  assert (Hwf : hub_wf hub_call).
  { assert (E : rooms hub_call = [("ABCD1234", room_call)])
      by reflexivity.
    unfold hub_wf. intros rid r. rewrite E. simpl.
    destruct (String.eqb rid "ABCD1234"); [|discriminate].
    intros H. inversion H. split.
    - repeat constructor; simpl; intuition discriminate.
    - intros p [<-|[<-|[]]]; reflexivity. }
  split; [exact Hwf|]. split; [reflexivity|]. split; [reflexivity|].
  apply (@disconnect_leaves_call hub_call "X" "ABCD1234" room_call Hwf);
    [reflexivity | reflexivity | left; reflexivity].
Defined.

(* ===================================================================== *)
(** ** The signalling relay *)
(* ===================================================================== *)

(** C8: a [webrtc-offer], [webrtc-answer] or [webrtc-ice-candidate]
    with target [to] never changes the hub; whatever it makes the hub
    send goes to [to] and is the payload as received, tagged with the
    sender; it is delivered whenever [to] is a member of the room (the
    sender's own membership is not looked at), and dropped, with no
    message to anyone, when [to] is not in the room or the room is
    unknown. *)
Theorem relay_is_point_to_point :
  forall (h : Hub) (kind : SignalKind) (rid from to payload : string),
    let res := signal h from (webrtc kind rid to payload) in
    fst res = h /\
    (forall t e, In (t, e) (snd res) ->
                 t = to /\ e = webrtc_signal kind from payload) /\
    (forall r, JsMap.get rid (rooms h) = Some r ->
               JsMap.has to (users r) = true ->
               snd res = [(to, webrtc_signal kind from payload)]) /\
    (forall r, JsMap.get rid (rooms h) = Some r ->
               JsMap.has to (users r) = false ->
               snd res = []) /\
    (JsMap.get rid (rooms h) = None -> snd res = []).
Proof.
  intros h kind rid from to payload res.
  unfold res. simpl. unfold SocketManager.relay.
  destruct (JsMap.get rid (rooms h)) as [r|] eqn:Eg.
  - destruct (JsMap.has to (users r)) eqn:Eh; simpl.
    + split; [reflexivity|]. split.
      * intros t e [H|[]]. inversion H. split; reflexivity.
      * split; [reflexivity|]. split; [|discriminate].
        intros r0 H0 Hf. inversion H0. subst r0. congruence.
    + split; [reflexivity|]. split; [intros t e []|].
      split; [|split; [reflexivity | discriminate]].
      intros r0 H0 Ht. inversion H0. subst r0. congruence.
  - simpl. split; [reflexivity|]. split; [intros t e []|].
    split; [discriminate|]. split; [discriminate | reflexivity].
Qed.

Lemma relay_is_point_to_point_witness :
  JsMap.get "ABCD1234" (rooms hub_call) = Some room_call /\
  JsMap.has "Y" (users room_call) = true /\
  JsMap.has "Q" (users room_call) = false /\
  snd (signal hub_call "X" (webrtc Offer "ABCD1234" "Y" "sdp"))
  = [("Y", webrtc_signal Offer "X" "sdp")] /\
  snd (signal hub_call "X" (webrtc Offer "ABCD1234" "Q" "sdp")) = [].
Proof.
  split; [reflexivity|]. split; [reflexivity|]. split; [reflexivity|].
  split.
  - apply (relay_is_point_to_point hub_call Offer "ABCD1234" "X" "Y" "sdp")
      with (r := room_call); reflexivity.
  - apply (relay_is_point_to_point hub_call Offer "ABCD1234" "X" "Q" "sdp")
      with (r := room_call); reflexivity.
Defined.

(* ===================================================================== *)
(** ** The client's negotiation guards *)
(* ===================================================================== *)

Section ClientGuards.
Import Client.


Lemma offer_to_known_peer rid c p :
  JsMap.has p (peerConnections c) = true -> offer_to rid c p = c.
Proof. intros H. unfold offer_to. rewrite H. reflexivity. Qed.

(** [call-peers-list] naming only peers the client already has a
    connection to changes nothing. *)
Lemma peers_list_known_peers peerIds : forall c,
  (forall p, In p peerIds -> JsMap.has p (peerConnections c) = true) ->
  onCallPeersList peerIds c = c.
Proof.
  intros c H. unfold onCallPeersList.
  destruct (negb (localStream c) || falsy (roomId c)); [reflexivity|].
  destruct (roomId c) as [rid|]; [|reflexivity].
  induction peerIds as [|p ps IH]; [reflexivity|].
  simpl. rewrite offer_to_known_peer by (apply H; left; reflexivity).
  apply IH. intros q Hq. apply H. right; exact Hq.
Qed.

(** [webrtc-offer] always constructs a connection and stores it under
    the sender's id, whatever was stored there. *)
Lemma offer_constructs c from rid :
  roomId c = Some rid -> rid <> EmptyString ->
  JsMap.get from (peerConnections (onWebrtcOffer from c))
  = Some (constructed c) /\
  constructed (onWebrtcOffer from c) = S (constructed c).
Proof.
  intros Hr Hne. unfold onWebrtcOffer.
  rewrite Hr, (falsy_nonempty Hne). simpl.
  rewrite get_set_same. split; reflexivity.
Qed.
End ClientGuards.

(** C9, evaluated on the client of X that already holds the connection
    number 0 to Y.  A [user-joined-call] or a [call-peers-list] naming
    Y leaves the client as it is, but a [webrtc-offer] from Y
    constructs a second connection and stores it in the place of the
    live one. *)
Theorem webrtc_offer_replaces_live_connection :
  JsMap.get "Y" (Client.peerConnections client_peering) = Some 0 /\
  Client.onUserJoinedCall "Y" client_peering = client_peering /\
  Client.onCallPeersList ["Y"] client_peering = client_peering /\
  JsMap.get "Y" (Client.peerConnections
                   (Client.onWebrtcOffer "Y" client_peering)) = Some 1 /\
  Client.constructed (Client.onWebrtcOffer "Y" client_peering) = 2.
Proof. repeat split. Qed.

(* ===================================================================== *)
(** ** Room ids and letter case *)
(* ===================================================================== *)

(** [join-room] treats a room id and its upper-case form alike. *)
Lemma join_room_normalizes sm h sid roomId name :
  handle sm h sid (join_room roomId name)
  = handle sm h sid (join_room (toUpperCase roomId) name).
Proof.
  simpl. unfold on_join_room. rewrite toUpperCase_idem. reflexivity.
Qed.

(** The three other handlers hand the room id to the manager as it
    came. *)
Lemma code_change_room_id_verbatim sm h sid rid c uid :
  rid <> EmptyString ->
  handle sm h sid (code_change (Some rid) c uid) = updateCode sm rid c uid h.
Proof.
  intros Hne. simpl. unfold on_code_change.
  rewrite (falsy_nonempty Hne). reflexivity.
Qed.

Lemma language_change_room_id_verbatim sm h sid rid lang :
  rid <> EmptyString -> lang <> EmptyString ->
  handle sm h sid (language_change (Some rid) (Some lang))
  = updateLanguage sm rid lang h.
Proof.
  intros Hr Hl. simpl. unfold on_language_change.
  rewrite (falsy_nonempty Hr), (falsy_nonempty Hl). reflexivity.
Qed.

Lemma chat_message_room_id_verbatim sm h sid rid m n uuid now :
  rid <> EmptyString -> m <> EmptyString -> n <> EmptyString ->
  handle sm h sid (chat_message (Some rid) (Some m) (Some n) uuid now)
  = broadcastMessage sm rid (mkChat uuid m n now sid) h.
Proof.
  intros Hr Hm Hn. simpl. unfold on_chat_message.
  rewrite (falsy_nonempty Hr), (falsy_nonempty Hm), (falsy_nonempty Hn).
  reflexivity.
Qed.

(** No operation installs a key that is not in upper case: a room that
    differs from another one by the case of its id never exists. *)
Lemma step_keeps_keys_upper h sid i :
  keys_upper h -> keys_upper (fst (hub_step h sid i)).
Proof.
  intros Hh rid.
  destruct i as [ev|ev]; destruct ev.
  7: { simpl. rewrite step_keys_of_disconnect. apply Hh. }
  all: unfold_handlers; simpl; handler_cases; simpl; try apply Hh.
  all: unfold SocketManager.getRoom in *.
  all: rewrite has_set.
  all: destruct (String.eqb rid _) eqn:E; simpl; try apply Hh.
  all: apply String.eqb_eq in E; subst rid; intros _.
  all: try apply toUpperCase_idem.
  all: apply Hh; unfold JsMap.has;
    match goal with
    | Hg : JsMap.get ?k _ = Some _ |- _ => rewrite Hg; reflexivity
    end.
Qed.

(** C3, evaluated on the room [ABCD1234] of X and Y with the id typed
    in lower case.  [join-room] puts the id in upper case and reaches
    the room; [code-change], [language-change] and [chat-message] look
    the id up as it came: the room is neither read nor written, and
    nothing is sent, while the same events with the id in upper case
    do reach it. *)
Theorem lower_case_room_id_is_not_normalized :
  toUpperCase "abcd1234" = "ABCD1234" /\
  room_members
    (fst (handle socketManager hub_xy "Z" (join_room "abcd1234" "eve")))
    "ABCD1234" = Some ["X"; "Y"; "Z"] /\
  handle socketManager hub_xy "X" (code_change (Some "abcd1234") "print(1)" "X")
  = (hub_xy, []) /\
  handle socketManager hub_xy "X"
    (language_change (Some "abcd1234") (Some "python"))
  = (hub_xy, []) /\
  handle socketManager hub_xy "X"
    (chat_message (Some "abcd1234") (Some "hi") (Some "ann") "id-1" "now")
  = (hub_xy, []) /\
  room_code (fst (handle socketManager hub_xy "X"
                    (code_change (Some "ABCD1234") "print(1)" "X")))
            "ABCD1234" = Some "print(1)" /\
  snd (handle socketManager hub_xy "X"
         (language_change (Some "ABCD1234") (Some "python")))
  = [("X", language_update "python"); ("Y", language_update "python")].
Proof. repeat split. Qed.

(* ===================================================================== *)
(** ** More on the handlers of server.ts *)
(* ===================================================================== *)

Lemma substring_length n m s :
  String.length (substring n m s) = Nat.min m (String.length s - n).
Proof.
  revert n m. induction s as [|c s IH]; intros [|n] [|m]; simpl;
    try reflexivity.
  - rewrite (IH 0 m). rewrite Nat.sub_0_r. reflexivity.
  - rewrite (IH n 0). reflexivity.
  - rewrite (IH n (S m)). reflexivity.
Qed.

(** X1: the room id [create-room] generates has as many characters as
    the printed random number has after its second one, up to 8: its
    length is the minimum of 8 and the length of the rendering minus
    2, so it is never longer than 8 and is shorter whenever fewer than
    8 digits follow [0.]. *)
Theorem generated_id_length :
  forall rendering : string,
    String.length (newRoomId rendering)
    = Nat.min 8 (String.length rendering - 2).
Proof.
  intros rendering. unfold newRoomId, js_substring.
  rewrite toUpperCase_length, substring_length. reflexivity.
Qed.

Lemma toUpperCase_nonempty s :
  s <> EmptyString -> toUpperCase s <> EmptyString.
Proof. destruct s; [congruence | discriminate]. Qed.

Lemma newRoomId_nonempty rendering :
  is_random_rendering rendering = true ->
  rendering <> "0" ->
  newRoomId rendering <> EmptyString.
Proof.
  intros Hr Hne.
  destruct rendering as [|a r]; [discriminate|].
  destruct a as [[] [] [] [] [] [] [] []]; try discriminate.
  destruct r as [|b r]; [contradiction Hne; reflexivity|].
  destruct b as [[] [] [] [] [] [] [] []]; try discriminate.
  destruct r as [|d ds]; [discriminate|].
  unfold newRoomId, js_substring. simpl. discriminate.
Qed.

(** X2: unless [Math.random()] printed [0], the id generated by
    [create-room] is not empty and is its own upper-case form, so the
    room it names can be addressed afterwards: [join-room] with this
    id looks up this very id, and a [code-change], [language-change]
    or [chat-message] carrying it passes the handler's guard and
    reaches the manager with this id, whatever the manager is. *)
Theorem generated_id_is_addressable :
  forall (sm : Manager) (h : Hub) (sid rendering : string)
         (c uid lang m n uuid now : string),
    is_random_rendering rendering = true ->
    rendering <> "0" ->
    lang <> EmptyString -> m <> EmptyString -> n <> EmptyString ->
    let rid := newRoomId rendering in
    rid <> EmptyString /\
    toUpperCase rid = rid /\
    handle sm h sid (code_change (Some rid) c uid)
    = updateCode sm rid c uid h /\
    handle sm h sid (language_change (Some rid) (Some lang))
    = updateLanguage sm rid lang h /\
    handle sm h sid (chat_message (Some rid) (Some m) (Some n) uuid now)
    = broadcastMessage sm rid (mkChat uuid m n now sid) h.
Proof.
  intros sm h sid rendering c uid lang m n uuid now Hr H0 Hl Hm Hn rid.
  assert (Hrid : rid <> EmptyString) by (apply newRoomId_nonempty; assumption).
  split; [exact Hrid|].
  split; [apply toUpperCase_idem|].
  split; [apply code_change_room_id_verbatim, Hrid|].
  split; [apply language_change_room_id_verbatim; assumption|].
  apply chat_message_room_id_verbatim; assumption.
Qed.

Lemma generated_id_is_addressable_witness :
  is_random_rendering "0.i" = true /\
  "0.i" <> "0" /\
  handle socketManager hub_xy "X" (code_change (Some (newRoomId "0.i")) "a" "X")
  = updateCode socketManager "I" "a" "X" hub_xy.
Proof.
  split; [reflexivity|]. split; [discriminate|].
  apply (@generated_id_is_addressable socketManager hub_xy "X" "0.i"
           "a" "X" "python" "hi" "ann" "id-1" "now");
    try reflexivity; discriminate.
Defined.

(** X3: [join-room] does not tell room ids apart by letter case: two
    requests whose ids have the same upper-case form are handled in
    exactly the same way (same lookup, same subscription, same call to
    the manager, same messages), whatever the manager is. *)
Theorem join_room_is_case_insensitive :
  forall (sm : Manager) (h : Hub) (sid a b name : string),
    toUpperCase a = toUpperCase b ->
    handle sm h sid (join_room a name) = handle sm h sid (join_room b name).
Proof.
  intros sm h sid a b name Hab. simpl. unfold on_join_room.
  rewrite Hab. reflexivity.
Qed.

Lemma join_room_is_case_insensitive_witness :
  toUpperCase "abcd1234" = toUpperCase "AbCd1234" /\
  handle socketManager hub_xy "Z" (join_room "abcd1234" "eve")
  = handle socketManager hub_xy "Z" (join_room "AbCd1234" "eve").
Proof.
  split; [reflexivity|].
  apply (@join_room_is_case_insensitive socketManager hub_xy "Z"
           "abcd1234" "AbCd1234" "eve").
  reflexivity.
Defined.

(** The scan of [disconnect], for any manager: rooms that do not hold
    the connection are passed over. *)
Lemma scan_of_a_stranger sm sid ks : forall acc,
  (forall k r, In k ks ->
               JsMap.get k (getAllRooms sm (fst acc)) = Some r ->
               JsMap.has sid (users r) = false) ->
  fold_left (disconnect_visit sm sid) ks acc = acc.
Proof.
  induction ks as [|k ks IH]; intros acc Hq; [reflexivity|].
  simpl fold_left.
  assert (Hv : disconnect_visit sm sid acc k = acc).
  { unfold disconnect_visit.
    destruct (JsMap.get k (getAllRooms sm (fst acc))) as [r|] eqn:Eg;
      [|reflexivity].
    rewrite (Hq k r (or_introl eq_refl) Eg). reflexivity. }
  rewrite Hv. apply IH. intros k' r' Hin. apply Hq. right; exact Hin.
Qed.

(** X6: when no room of the manager holds the connection, its
    [disconnect] never calls [leaveRoom]: the handler sends nothing
    and leaves the registry alone (only the transport's subscriptions
    of the connection go), whatever the manager is.  Disconnecting a
    connection that never joined, or that has already left, is
    harmless. *)
Theorem disconnect_of_a_stranger :
  forall (sm : Manager) (h : Hub) (sid : string),
    (forall k r, JsMap.get k (getAllRooms sm (socket_drop sid h)) = Some r ->
                 JsMap.has sid (users r) = false) ->
    handle sm h sid disconnect = (socket_drop sid h, []) /\
    rooms (fst (handle sm h sid disconnect)) = rooms h.
Proof.
  intros sm h sid Hq. simpl. unfold on_disconnect.
  rewrite scan_of_a_stranger; [split; reflexivity|].
  intros k r _. apply Hq.
Qed.

Lemma disconnect_of_a_stranger_witness :
  handle socketManager hub_xy "Q" disconnect = (hub_xy, []).
Proof.
  apply (@disconnect_of_a_stranger socketManager hub_xy "Q").
  intros k r.
  change (getAllRooms socketManager (socket_drop "Q" hub_xy))
    with [("ABCD1234", room_xy)].
  simpl. destruct (String.eqb k "ABCD1234"); [|discriminate].
  intros H. inversion H. reflexivity.
Defined.

(* ===================================================================== *)
(** ** More on the client's negotiation listeners *)
(* ===================================================================== *)

Section Negotiation.
Import Client.

Lemma offer_to_new rid c p :
  JsMap.has p (peerConnections c) = false ->
  offer_to rid c p
  = mkState (self c) (roomId c) (localStream c) (editor c)
            (JsMap.set p (constructed c) (peerConnections c))
            (S (constructed c)) (outbox c).
Proof. intros H. unfold offer_to. rewrite H. reflexivity. Qed.

Lemma has_get_some (m : JsMap.t nat) p pc :
  JsMap.get p m = Some pc -> JsMap.has p m = true.
Proof. intros H. unfold JsMap.has. rewrite H. reflexivity. Qed.

(** What [peerIds.forEach] does, from any state. *)
Lemma connections_fold rid ids : forall c,
  outbox (fold_left (offer_to rid) ids c) = outbox c /\
  exists fresh,
    NoDup fresh /\
    (forall p, In p fresh <->
               In p ids /\ JsMap.has p (peerConnections c) = false) /\
    constructed (fold_left (offer_to rid) ids c)
    = constructed c + length fresh /\
    (forall p, In p fresh ->
       exists pc,
         JsMap.get p (peerConnections (fold_left (offer_to rid) ids c))
         = Some pc /\
         constructed c <= pc
         < constructed (fold_left (offer_to rid) ids c)) /\
    (forall p, JsMap.has p (peerConnections (fold_left (offer_to rid) ids c))
               = JsMap.has p (peerConnections c) || JsSet.has p ids) /\
    (forall p pc, JsMap.get p (peerConnections c) = Some pc ->
                  JsMap.get p (peerConnections
                                 (fold_left (offer_to rid) ids c))
                  = Some pc).
Proof.
  induction ids as [|p0 ids IH]; intros c.
  - split; [reflexivity|]. exists []. simpl.
    split; [constructor|].
    split; [intros p; split; [intros [] | intros [[] _]]|].
    split; [rewrite Nat.add_0_r; reflexivity|].
    split; [intros p []|].
    split; [intros p; rewrite orb_false_r; reflexivity|].
    intros p pc H. exact H.
  - simpl fold_left.
    destruct (JsMap.has p0 (peerConnections c)) eqn:Eh.
    + rewrite offer_to_known_peer by exact Eh.
      destruct (IH c) as [Ho [fresh [Hnd [Hin [Hc [Hr [Hh Hg]]]]]]].
      split; [exact Ho|]. exists fresh.
      split; [exact Hnd|].
      split.
      { intros p. rewrite Hin. simpl. split.
        - intros [Hp Hu]. split; [right; exact Hp | exact Hu].
        - intros [[Hp|Hp] Hu]; [subst p; congruence|].
          split; assumption. }
      split; [exact Hc|]. split; [exact Hr|]. split; [|exact Hg].
      intros p. rewrite Hh. simpl.
      destruct (String.eqb p p0) eqn:E; [|reflexivity].
      apply String.eqb_eq in E. subst p. rewrite Eh. reflexivity.
    + rewrite offer_to_new by exact Eh.
      set (c1 := mkState (self c) (roomId c) (localStream c) (editor c)
                   (JsMap.set p0 (constructed c) (peerConnections c))
                   (S (constructed c)) (outbox c)).
      destruct (IH c1) as [Ho [fresh [Hnd [Hin [Hc [Hr [Hh Hg]]]]]]].
      split; [exact Ho|]. exists (p0 :: fresh).
      split.
      { constructor; [|exact Hnd].
        intros Hp. apply Hin in Hp. destruct Hp as [_ Hp].
        simpl in Hp. rewrite has_set, String.eqb_refl in Hp.
        discriminate Hp. }
      split.
      { intros p. simpl. rewrite Hin. simpl. rewrite has_set. split.
        - intros [<-|[Hp Hu]]; [split; [left; reflexivity | exact Eh]|].
          apply orb_false_iff in Hu. destruct Hu as [_ Hu].
          split; [right; exact Hp | exact Hu].
        - intros [[Hp|Hp] Hu]; [left; exact Hp|].
          destruct (String.eqb p p0) eqn:E.
          + apply String.eqb_eq in E. left. symmetry. exact E.
          + right. split; [exact Hp|]. rewrite Hu. reflexivity. }
      split; [rewrite Hc; simpl; lia|].
      split.
      { intros p [<-|Hp].
        - exists (constructed c). split.
          + apply Hg. simpl. apply get_set_same.
          + rewrite Hc. simpl. lia.
        - destruct (Hr p Hp) as [pc [Hpc Hrange]].
          exists pc. split; [exact Hpc|]. simpl in Hrange. lia. }
      split.
      { intros p. rewrite Hh. simpl. rewrite has_set.
        destruct (String.eqb p p0), (JsMap.has p (peerConnections c)),
          (JsSet.has p ids); reflexivity. }
      { intros p pc Hp. apply Hg. simpl. rewrite get_set.
        destruct (String.eqb p p0) eqn:E; [|exact Hp].
        apply String.eqb_eq in E. subst p.
        rewrite (has_get_some _ _ Hp) in Eh. discriminate Eh. }
Qed.

End Negotiation.

(** X7: on [call-peers-list], a client with its camera on and a room
    constructs one connection for each listed peer it has no
    connection to yet: exactly one per such peer even when the list
    names it twice, each a connection constructed during this call,
    and none for a peer it already knows.  Afterwards it has a
    connection to every listed peer and every connection it had is
    still the same one.  It sends nothing: the emit of the offer, at
    the end of the promise chain, reads a name that is out of scope
    there. *)
Theorem peers_list_builds_each_new_connection_once :
  forall (ids : list string) (c : Client.State) (rid : string),
    Client.localStream c = true ->
    Client.roomId c = Some rid ->
    rid <> EmptyString ->
    let c' := Client.onCallPeersList ids c in
    Client.outbox c' = Client.outbox c /\
    exists fresh,
      NoDup fresh /\
      (forall p, In p fresh <->
                 In p ids /\
                 JsMap.has p (Client.peerConnections c) = false) /\
      Client.constructed c' = Client.constructed c + length fresh /\
      (forall p, In p fresh ->
         exists pc,
           JsMap.get p (Client.peerConnections c') = Some pc /\
           Client.constructed c <= pc < Client.constructed c') /\
      (forall p, JsMap.has p (Client.peerConnections c')
                 = JsMap.has p (Client.peerConnections c)
                   || JsSet.has p ids) /\
      (forall p pc, JsMap.get p (Client.peerConnections c) = Some pc ->
                    JsMap.get p (Client.peerConnections c') = Some pc).
Proof.
  intros ids c rid Hs Hr Hne c'. unfold c', Client.onCallPeersList.
  rewrite Hs, Hr, (falsy_nonempty Hne). simpl.
  apply connections_fold.
Qed.

Lemma peers_list_builds_each_new_connection_once_witness :
  Client.localStream client_peering = true /\
  Client.roomId client_peering = Some "ABCD1234" /\
  "ABCD1234" <> EmptyString /\
  Client.outbox (Client.onCallPeersList ["Z"; "Y"; "Z"] client_peering)
  = Client.outbox client_peering /\
  JsMap.get "Y"
    (Client.peerConnections
       (Client.onCallPeersList ["Z"; "Y"; "Z"] client_peering))
  = Some 0.
Proof.
  assert (Hne : "ABCD1234" <> EmptyString) by discriminate.
  split; [reflexivity|]. split; [reflexivity|]. split; [exact Hne|].
  destruct (@peers_list_builds_each_new_connection_once ["Z"; "Y"; "Z"]
              client_peering "ABCD1234" eq_refl eq_refl Hne)
    as [Ho [fresh [_ [_ [_ [_ [_ Hg]]]]]]].
  split; [exact Ho|]. apply Hg. reflexivity.
Defined.



(* ===================================================================== *)
(** ** The client's forms, chat and editor *)
(* ===================================================================== *)

Lemma truthy_nonempty s : truthy s = true <-> s <> EmptyString.
Proof.
  unfold truthy. rewrite negb_true_iff. apply String.eqb_neq.
Qed.

Lemma trim_nonempty s : truthy (trim s) = true -> s <> EmptyString.
Proof. intros H ->. discriminate H. Qed.

Lemma js_or_nonempty a b : b <> EmptyString -> js_or a b <> EmptyString.
Proof.
  intros Hb. unfold js_or. destruct (truthy a) eqn:E; [|exact Hb].
  apply truthy_nonempty, E.
Qed.

Lemma falsy_false_inv (f : option string) :
  falsy f = false -> exists s, f = Some s /\ s <> EmptyString.
Proof.
  destruct f as [s|]; [|discriminate]. simpl. intros H.
  exists s. split; [reflexivity | apply String.eqb_neq, H].
Qed.

Lemma offline_false_inv c :
  App.offline c = false ->
  exists s, App.socketRef c = Some s /\ App.connected s = true.
Proof.
  unfold App.offline. destruct (App.socketRef c) as [s|]; [|discriminate].
  intros H. exists s. split; [reflexivity|].
  apply negb_false_iff, H.
Qed.

(** X9: [joinRoom] either refuses, showing one error toast, sending
    nothing and changing nothing, or sends exactly one [join-room]:
    this happens only with a user name and a room id that are not
    blank, a chosen avatar and a connected socket.  The id sent is the
    typed id in upper case (as typed otherwise: it is not trimmed), it
    is not empty, the hub's own upper-casing leaves it as it is, and it
    is the id the client keeps as its room for the events that
    follow. *)
Theorem joinRoom_sends_only_complete_requests :
  forall c : App.State,
    let '(c', out, toasts) := App.joinRoom c in
    (out = [] /\ c' = c /\ exists m, toasts = [App.toast_error m]) \/
    (exists rid a s,
        out = [App.emit_join_room rid (App.userName c) (Some a)] /\
        toasts = [] /\
        rid = toUpperCase (App.roomIdToJoin c) /\
        toUpperCase rid = rid /\
        rid <> EmptyString /\
        trim (App.userName c) <> EmptyString /\
        trim (App.roomIdToJoin c) <> EmptyString /\
        App.avatar c = Some a /\ a <> EmptyString /\
        App.socketRef c = Some s /\ App.connected s = true /\
        App.roomId c' = Some rid /\
        App.currentUser c' = App.userName c).
Proof.
  intros c. unfold App.joinRoom.
  destruct (truthy (trim (App.userName c))) eqn:En; simpl;
    [|left; eauto].
  destruct (truthy (trim (App.roomIdToJoin c))) eqn:Er; simpl;
    [|left; eauto].
  destruct (falsy (App.avatar c)) eqn:Ea; [left; eauto|].
  destruct (App.offline c) eqn:Eo; [left; eauto|].
  right.
  destruct (falsy_false_inv _ Ea) as [a [Ha Hane]].
  destruct (offline_false_inv _ Eo) as [s [Hs Hc]].
  exists (toUpperCase (App.roomIdToJoin c)), a, s.
  rewrite Ha.
  repeat (split; [first [reflexivity | assumption]|]); simpl.
  split; [apply toUpperCase_idem|].
  split; [apply toUpperCase_nonempty, trim_nonempty, Er|].
  split; [apply truthy_nonempty, En|].
  split; [apply truthy_nonempty, Er|].
  repeat (split; [first [reflexivity | assumption]|]). reflexivity.
Qed.

(** X10: [handleCreateRoom] either refuses, showing one error toast,
    sending nothing and changing nothing, or sends exactly one
    [create-room]: this happens only with a user name and a room name
    that are not blank, a chosen avatar and a connected socket; the
    names go out as typed, and the client records the user name as its
    current user. *)
Theorem handleCreateRoom_sends_only_complete_requests :
  forall c : App.State,
    let '(c', out, toasts) := App.handleCreateRoom c in
    (out = [] /\ c' = c /\ exists m, toasts = [App.toast_error m]) \/
    (exists a s,
        out = [App.emit_create_room (App.roomNameForCreation c)
                 (App.userName c) (Some a)] /\
        toasts = [] /\
        trim (App.userName c) <> EmptyString /\
        trim (App.roomNameForCreation c) <> EmptyString /\
        App.avatar c = Some a /\ a <> EmptyString /\
        App.socketRef c = Some s /\ App.connected s = true /\
        App.currentUser c' = App.userName c /\
        App.roomId c' = App.roomId c).
Proof.
  intros c. unfold App.handleCreateRoom.
  destruct (truthy (trim (App.userName c))) eqn:En; simpl;
    [|left; eauto].
  destruct (truthy (trim (App.roomNameForCreation c))) eqn:Er; simpl;
    [|left; eauto].
  destruct (falsy (App.avatar c)) eqn:Ea; [left; eauto|].
  destruct (App.offline c) eqn:Eo; [left; eauto|].
  right.
  destruct (falsy_false_inv _ Ea) as [a [Ha Hane]].
  destruct (offline_false_inv _ Eo) as [s [Hs Hc]].
  exists a, s. rewrite Ha.
  split; [reflexivity|]. split; [reflexivity|].
  split; [apply truthy_nonempty, En|].
  split; [apply truthy_nonempty, Er|].
  repeat (split; [first [reflexivity | assumption]|]). reflexivity.
Qed.

(** X11: [sendMessage] shows no toast and either does nothing at all
    (blank input, no socket or no room) or sends exactly one
    [chat-message] with the input as typed, clears the input, and
    names the sender by the current user, else the typed name, else
    "Anonymous": never by an empty name.  Such a message always passes
    the guard of the hub's [chat-message] handler, which hands it to
    the manager stamped with the sender's socket id, whatever the
    manager is. *)
Theorem sent_chat_message_passes_hub_guard :
  forall (c : App.State) (sm : Manager) (h : Hub) (sid uuid now : string),
    let '(c', out, toasts) := App.sendMessage c in
    toasts = [] /\
    ((out = [] /\ c' = c) \/
     (exists rid name,
        out = [App.emit_chat_message rid (App.inputMessage c) name
                 (App.avatar c)] /\
        App.roomId c = Some rid /\
        name = js_or (js_or (App.currentUser c) (App.userName c))
                     "Anonymous" /\
        name <> EmptyString /\
        App.inputMessage c' = EmptyString /\
        handle sm h sid
          (chat_message (Some rid) (Some (App.inputMessage c)) (Some name)
                        uuid now)
        = broadcastMessage sm rid
            (mkChat uuid (App.inputMessage c) name now sid) h)).
Proof.
  intros c sm h sid uuid now. unfold App.sendMessage.
  destruct (App.socketRef c) as [s|]; [|split; [reflexivity | left; auto]].
  destruct (App.roomId c) as [rid|] eqn:Er;
    [|split; [reflexivity | left; auto]].
  destruct (truthy (trim (App.inputMessage c))) eqn:Em; simpl;
    [|split; [reflexivity | left; auto]].
  destruct (String.eqb rid EmptyString) eqn:Erid;
    [split; [reflexivity | left; auto]|].
  split; [reflexivity|]. right.
  exists rid, (js_or (js_or (App.currentUser c) (App.userName c))
                     "Anonymous").
  assert (Hname : js_or (js_or (App.currentUser c) (App.userName c))
                        "Anonymous" <> EmptyString)
    by (apply js_or_nonempty; discriminate).
  split; [reflexivity|]. split; [reflexivity|]. split; [reflexivity|].
  split; [exact Hname|]. split; [reflexivity|].
  apply chat_message_room_id_verbatim;
    [apply String.eqb_neq, Erid | apply trim_nonempty, Em | exact Hname].
Qed.

(** X12: an edit always lands in the local editor, even offline or
    outside a room, and an empty text counts as an edit.  When it is
    also sent (connected socket, room set), the [code-change] carries
    the new text and, as [userId], the socket's own id, so the hub's
    handler, which trusts that field, calls the manager's [updateCode]
    with the id of the very connection that sent the edit.  An
    [undefined] value does nothing. *)
Theorem editor_change_names_its_sender :
  forall (c : App.State) (v : string) (sm : Manager) (h : Hub),
    App.onEditorChange None c = (c, [], []) /\
    let '(c', out, toasts) := App.onEditorChange (Some v) c in
    App.code c' = v /\ toasts = [] /\
    (out = [] \/
     exists s rid,
       App.socketRef c = Some s /\ App.connected s = true /\
       App.roomId c = Some rid /\
       out = [App.emit_code_change rid v (App.id s)] /\
       handle sm h (App.id s) (code_change (Some rid) v (App.id s))
       = updateCode sm rid v (App.id s) h).
Proof.
  intros c v sm h. split; [reflexivity|]. unfold App.onEditorChange.
  destruct (App.socketRef c) as [s|]; [|simpl; auto].
  destruct (App.roomId c) as [rid|] eqn:Er; [|simpl; auto].
  destruct (String.eqb rid EmptyString) eqn:Erid; simpl;
    rewrite Erid; simpl; [auto|].
  destruct (App.connected s) eqn:Ec; simpl; [|auto].
  split; [reflexivity|]. split; [reflexivity|]. right.
  exists s, rid. repeat (split; [first [reflexivity | assumption]|]).
  apply (@code_change_room_id_verbatim sm h (App.id s) rid v (App.id s)).
  apply String.eqb_neq, Erid.
Qed.

Lemma all_languages_nonempty lang :
  In lang App.ALL_LANGUAGES -> lang <> EmptyString.
Proof.
  unfold App.ALL_LANGUAGES. simpl.
  intros H. repeat (destruct H as [<-|H]; [discriminate|]). contradiction.
Qed.

(** X13: choosing a language of [ALL_LANGUAGES] always sets the local
    language and shows no toast.  A client that holds a socket and is
    in a room sends exactly one [language-change] with its room id and
    the chosen language, and this message passes the guard of the
    hub's handler (no entry of the list is empty) and reaches the
    manager's [updateLanguage] with both as sent, whatever the manager
    is; any other client sends nothing.  The entries of the list are
    pairwise different. *)
Theorem language_choice_passes_hub_guard :
  forall (c : App.State) (lang : string)
         (sm : Manager) (h : Hub) (sid : string),
    In lang App.ALL_LANGUAGES ->
    NoDup App.ALL_LANGUAGES /\
    let '(c', out, toasts) := App.onLanguageSelect lang c in
    App.language c' = lang /\ toasts = [] /\
    out = match room_of c with
          | Some rid => [App.emit_language_change rid lang]
          | None => []
          end /\
    (forall rid, room_of c = Some rid ->
       App.roomId c = Some rid /\
       handle sm h sid (language_change (Some rid) (Some lang))
       = updateLanguage sm rid lang h).
Proof.
  intros c lang sm h sid Hin. split.
  { unfold App.ALL_LANGUAGES.
    repeat (constructor; [simpl; intuition discriminate|]). constructor. }
  unfold App.onLanguageSelect, room_of.
  destruct (App.socketRef c) as [s|];
    [|simpl; repeat (split; [reflexivity|]); discriminate].
  destruct (App.roomId c) as [rid|] eqn:Er;
    [|simpl; repeat (split; [reflexivity|]); discriminate].
  unfold truthy. simpl.
  destruct (String.eqb rid EmptyString) eqn:Erid; simpl;
    [repeat (split; [reflexivity|]); discriminate|].
  repeat (split; [reflexivity|]).
  intros rid' Hrid. inversion Hrid. subst rid'.
  split; [reflexivity|].
  apply (@language_change_room_id_verbatim sm h sid rid lang);
    [apply String.eqb_neq, Erid | apply all_languages_nonempty, Hin].
Qed.

Lemma language_choice_passes_hub_guard_witness :
  In "python" App.ALL_LANGUAGES /\
  snd (fst (App.onLanguageSelect "python" in_room))
  = [App.emit_language_change "ABCD1234" "python"] /\
  handle socketManager hub_xy "X"
    (language_change (Some "ABCD1234") (Some "python"))
  = updateLanguage socketManager "ABCD1234" "python" hub_xy.
Proof.
  assert (Hin : In "python" App.ALL_LANGUAGES)
    by (right; right; left; reflexivity).
  split; [exact Hin|].
  destruct (@language_choice_passes_hub_guard in_room "python"
              socketManager hub_xy "X" Hin)
    as [_ [_ [_ [Hout Hhub]]]].
  split; [exact Hout|].
  apply (Hhub "ABCD1234"). reflexivity.
Defined.

(* ===================================================================== *)
(** ** Running the code *)
(* ===================================================================== *)

Lemma string_append_assoc (a b c : string) :
  ((a ++ b) ++ c = a ++ (b ++ c))%string.
Proof.
  induction a as [|x a IH]; simpl; [reflexivity|].
  rewrite IH. reflexivity.
Qed.

(** X14: the text shown for a successful run is made of the truthy
    ones among [stdout], [stderr] and [compile_output], in this order,
    separated by single line feeds, with no leading or trailing
    separator; when none of them is there it is "(no output)".  It is
    never empty. *)
Theorem finalOutput_joins_the_present_parts :
  forall data : App.RunData,
    App.finalOutput data
    = match present_parts data with
      | [] => "(no output)"
      | parts => String.concat newline parts
      end /\
    App.finalOutput data <> EmptyString.
Proof.
  intros [[[|a1 s1]|] [[|a2 s2]|] [[|a3 s3]|] err];
    (split; [|discriminate]);
    try reflexivity.
  cbn. f_equal. apply string_append_assoc.
Qed.

Lemma error_text_nonempty m :
  ("Error: " ++ js_or m "Run failed")%string <> EmptyString.
Proof. discriminate. Qed.

(** X15: [runCode] refuses a blank program with the toast "Nothing to
    run", sending nothing and changing nothing.  Otherwise, whatever
    the execution service answers, [isRunning] ends false and the
    output panel is not left empty; [run-output] is sent at most once,
    only after a successful answer and only in a room, and then it
    carries exactly the text of the sender's own output panel and the
    language that was run; an error toast is shown exactly when the
    run did not succeed. *)
Theorem runCode_shares_what_it_shows :
  forall (codeToRun lang : string) (fetch : App.FetchOutcome)
         (c : App.State),
    let '(c', out, toasts) := App.runCode codeToRun lang fetch c in
    (trim codeToRun = EmptyString ->
     c' = c /\ out = [] /\ toasts = [App.toast_error "Nothing to run"]) /\
    (trim codeToRun <> EmptyString ->
     App.isRunning c' = false /\
     App.output c' <> EmptyString /\
     App.code c' = App.code c /\
     length out <= 1 /\
     (forall e, In e out ->
        exists rid data,
          fetch = App.Responded true data /\
          App.roomId c = Some rid /\ rid <> EmptyString /\
          e = App.emit_run_output rid (App.output c') lang) /\
     (toasts = [] <-> exists data, fetch = App.Responded true data)).
Proof.
  intros codeToRun lang fetch c. unfold App.runCode.
  destruct (truthy (trim codeToRun)) eqn:Et; simpl.
  - assert (Hne : trim codeToRun <> EmptyString)
      by (apply truthy_nonempty, Et).
    destruct fetch as [[|] data|m]; simpl;
      (split; [intros E; contradiction|]); intros _.
    + split; [reflexivity|].
      split; [apply finalOutput_joins_the_present_parts|].
      split; [reflexivity|].
      split.
      { destruct (App.socketRef c), (App.roomId c) as [rid|]; simpl;
          try lia.
        destruct (String.eqb rid EmptyString); simpl; lia. }
      split; [|split; [intros _; exists data; reflexivity | reflexivity]].
      intros e He.
      destruct (App.socketRef c); [|contradiction].
      destruct (App.roomId c) as [rid|] eqn:Er; [|contradiction].
      simpl in He.
      destruct (String.eqb rid EmptyString) eqn:Erid; [contradiction|].
      destruct He as [<-|[]]. exists rid, data.
      split; [reflexivity|]. split; [reflexivity|].
      split; [apply String.eqb_neq, Erid | reflexivity].
    + split; [reflexivity|].
      split; [apply error_text_nonempty|].
      split; [reflexivity|]. split; [lia|].
      split; [intros e []|].
      split; [discriminate | intros [d Hd]; discriminate Hd].
    + split; [reflexivity|].
      split; [apply error_text_nonempty|].
      split; [reflexivity|]. split; [lia|].
      split; [intros e []|].
      split; [discriminate | intros [d Hd]; discriminate Hd].
  - split; [intros _; auto|].
    intros Hne. exfalso. apply Hne.
    unfold truthy in Et. apply negb_false_iff, String.eqb_eq in Et.
    exact Et.
Qed.

Lemma runCode_shares_what_it_shows_witness :
  trim "print(1)" <> EmptyString /\
  App.isRunning
    (fst (fst (App.runCode "print(1)" "python"
                 (App.Responded true
                    (App.mkRunData (Some "1") None (Some "warning") None))
                 in_room))) = false /\
  App.output
    (fst (fst (App.runCode "print(1)" "python"
                 (App.Responded true
                    (App.mkRunData (Some "1") None (Some "warning") None))
                 in_room))) <> EmptyString.
Proof.
  assert (Hne : trim "print(1)" <> EmptyString) by discriminate.
  split; [exact Hne|].
  pose proof (runCode_shares_what_it_shows "print(1)" "python"
                (App.Responded true
                   (App.mkRunData (Some "1") None (Some "warning") None))
                in_room) as H.
  simpl in H. destruct H as [_ H].
  destruct (H Hne) as [H1 [H2 _]]. split; assumption.
Defined.

(* ===================================================================== *)
(** ** The call controls *)
(* ===================================================================== *)

Lemma get_values (V : Type) (m : JsMap.t V) k v :
  JsMap.get k m = Some v -> In v (JsMap.values m).
Proof.
  unfold JsMap.values.
  induction m as [|[k0 v0] m IH]; simpl; [discriminate|].
  destruct (String.eqb k k0).
  - intros H. inversion H. left; reflexivity.
  - intros H. right. apply IH, H.
Qed.

Lemma delete_delete (V : Type) (m : JsMap.t V) k :
  JsMap.delete k (JsMap.delete k m) = JsMap.delete k m.
Proof.
  apply delete_absent. rewrite has_delete, String.eqb_refl. reflexivity.
Qed.

(** X16: a client that is in a room (non-empty room id), holds a
    socket and is not in a call enters the call as soon as the media
    are granted: it keeps the granted stream as local stream, touches
    no connection or remote stream, sets the three buttons on (so
    they agree with a stream whose tracks are all enabled, as a fresh
    stream's are) and sends [join-call] and then [get-call-peers] for
    its room, in this order and nothing else, with no toast.  In
    every other case (no room, no socket, already in a call, media
    denied) [startCall] only shows one toast: nothing is sent and
    nothing changes. *)
Theorem startCall_announces_then_asks :
  forall (media : Media.MediaOutcome) (c : Media.State),
    (forall rid stream,
       media = Media.Granted stream ->
       Media.roomId c = Some rid -> rid <> EmptyString ->
       Media.hasSocket c = true -> Media.inCall c = false ->
       let '(c', out, toasts) := Media.startCall media c in
       out = [Media.emit_join_call rid; Media.emit_get_call_peers rid] /\
       toasts = [] /\
       Media.inCall c' = true /\
       Media.localStream c' = Some stream /\
       Media.peerConnections c' = Media.peerConnections c /\
       Media.remoteStreams c' = Media.remoteStreams c /\
       Media.closed c' = Media.closed c /\
       (Media.videoEnabled c' && Media.audioEnabled c'
        && Media.speakerEnabled c' = true) /\
       (forallb Media.enabled stream = true -> in_sync c' = true)) /\
    ((falsy (Media.roomId c) = true \/ Media.hasSocket c = false \/
      Media.inCall c = true \/ exists name, media = Media.Denied name) ->
     let '(c', out, toasts) := Media.startCall media c in
     out = [] /\ c' = c /\ exists t, toasts = [t]).
Proof.
  intros media c. split.
  - intros rid stream -> Hr Hne Hs Hi. unfold Media.startCall.
    rewrite Hr, (falsy_nonempty Hne), Hs, Hi. simpl.
    repeat (split; [reflexivity|]).
    unfold in_sync. simpl. intros Hall.
    rewrite forallb_forall in *. intros t Ht.
    rewrite (Hall t Ht). destruct (Media.is_video t); reflexivity.
  - intros Hrefuse. unfold Media.startCall.
    destruct (Media.roomId c) as [rid|] eqn:Er; [|eauto].
    destruct (falsy (Some rid)) eqn:Ef; simpl; [eauto|].
    destruct (Media.hasSocket c) eqn:Es; simpl; [|eauto].
    destruct (Media.inCall c) eqn:Ei; [eauto|].
    destruct media as [stream|name]; [|eauto].
    exfalso. destruct Hrefuse as [H|[H|[H|[name H]]]]; discriminate H.
Qed.

Lemma startCall_announces_then_asks_witness :
  Media.roomId ready_to_call = Some "ABCD1234" /\
  "ABCD1234" <> EmptyString /\
  Media.hasSocket ready_to_call = true /\
  Media.inCall ready_to_call = false /\
  snd (fst (Media.startCall
              (Media.Granted [Media.mkTrack Media.video true])
              ready_to_call))
  = [Media.emit_join_call "ABCD1234";
     Media.emit_get_call_peers "ABCD1234"] /\
  snd (fst (Media.startCall
              (Media.Granted [Media.mkTrack Media.video true]) in_call))
  = [].
Proof.
  assert (Hne : "ABCD1234" <> EmptyString) by discriminate.
  split; [reflexivity|]. split; [exact Hne|].
  split; [reflexivity|]. split; [reflexivity|].
  split.
  - destruct (startCall_announces_then_asks
                (Media.Granted [Media.mkTrack Media.video true])
                ready_to_call) as [H _].
    apply (H "ABCD1234" [Media.mkTrack Media.video true]
             eq_refl eq_refl Hne eq_refl eq_refl).
  - destruct (startCall_announces_then_asks
                (Media.Granted [Media.mkTrack Media.video true])
                in_call) as [_ H].
    apply H. right. right. left. reflexivity.
Defined.

(** X17: leaving a call one is in closes every stored peer connection
    and stops every local track, forgets all connections, remote
    streams and the local stream, sets the three buttons back on and
    sends one [leave-call] for the room.  Leaving a second time does
    nothing and sends nothing. *)
Theorem leaveCall_releases_everything :
  forall c : Media.State,
    Media.inCall c = true ->
    Media.hasSocket c = true ->
    let '(c', out) := Media.leaveCall c in
    out = [Media.emit_leave_call (Media.roomId c)] /\
    Media.inCall c' = false /\
    Media.localStream c' = None /\
    Media.peerConnections c' = [] /\
    Media.remoteStreams c' = [] /\
    (forall p pc, JsMap.get p (Media.peerConnections c) = Some pc ->
                  In pc (Media.closed c')) /\
    (forall tracks t, Media.localStream c = Some tracks -> In t tracks ->
                      In t (Media.stopped c')) /\
    (Media.videoEnabled c' && Media.audioEnabled c'
     && Media.speakerEnabled c' = true) /\
    in_sync c' = true /\
    Media.leaveCall c' = (c', []).
Proof.
  intros c Hi Hs. unfold Media.leaveCall at 1. rewrite Hi, Hs. simpl.
  repeat (split; [reflexivity|]).
  split.
  { intros p pc Hp. apply in_or_app. right.
    apply (get_values _ _ Hp). }
  split.
  { intros tracks t Hl Ht. apply in_or_app. right.
    rewrite Hl. exact Ht. }
  repeat split.
Qed.

Lemma leaveCall_releases_everything_witness :
  Media.inCall in_call = true /\
  Media.hasSocket in_call = true /\
  In 0 (Media.closed (fst (Media.leaveCall in_call))) /\
  In 1 (Media.closed (fst (Media.leaveCall in_call))).
Proof.
  split; [reflexivity|]. split; [reflexivity|].
  pose proof (leaveCall_releases_everything in_call eq_refl eq_refl) as H.
  simpl in H. destruct H as [_ [_ [_ [_ [_ [H _]]]]]].
  split; [apply (H "Y") | apply (H "Z")]; reflexivity.
Defined.

(** X18: when a peer leaves the call, the client closes the connection
    it had to that peer, if any, and forgets the peer: afterwards the
    peer has neither a connection nor a remote stream, while the
    connections and streams of all other peers, the local stream and
    the call itself are untouched.  A repeated notification changes
    nothing more. *)
Theorem user_left_call_forgets_the_peer :
  forall (c : Media.State) (p : string),
    let c' := Media.onUserLeftCall p c in
    JsMap.has p (Media.peerConnections c') = false /\
    JsMap.has p (Media.remoteStreams c') = false /\
    (forall q, q <> p ->
       JsMap.get q (Media.peerConnections c')
       = JsMap.get q (Media.peerConnections c) /\
       JsMap.get q (Media.remoteStreams c')
       = JsMap.get q (Media.remoteStreams c)) /\
    Media.closed c'
    = Media.closed c
      ++ match JsMap.get p (Media.peerConnections c) with
         | Some pc => [pc]
         | None => []
         end /\
    Media.localStream c' = Media.localStream c /\
    Media.inCall c' = Media.inCall c /\
    Media.onUserLeftCall p c' = c'.
Proof.
  intros c p c'. unfold c', Media.onUserLeftCall.
  destruct (JsMap.get p (Media.peerConnections c)) as [pc|] eqn:Eg; simpl.
  - split; [rewrite has_delete, String.eqb_refl; reflexivity|].
    split; [rewrite has_delete, String.eqb_refl; reflexivity|].
    split.
    { intros q Hq. rewrite !get_delete.
      apply String.eqb_neq in Hq. rewrite Hq. auto. }
    split; [reflexivity|]. split; [reflexivity|]. split; [reflexivity|].
    rewrite get_delete, String.eqb_refl. simpl.
    rewrite delete_delete. reflexivity.
  - assert (Hn : JsMap.has p (Media.peerConnections c) = false)
      by (unfold JsMap.has; rewrite Eg; reflexivity).
    split; [exact Hn|].
    split; [rewrite has_delete, String.eqb_refl; reflexivity|].
    split.
    { intros q Hq. rewrite get_delete.
      apply String.eqb_neq in Hq. rewrite Hq. auto. }
    split; [rewrite app_nil_r; reflexivity|].
    split; [reflexivity|]. split; [reflexivity|].
    rewrite Eg. simpl. rewrite delete_delete. reflexivity.
Qed.

Lemma user_left_call_forgets_the_peer_witness :
  "Z" <> "Y" /\
  JsMap.has "Y" (Media.peerConnections (Media.onUserLeftCall "Y" in_call))
  = false /\
  JsMap.get "Z" (Media.peerConnections (Media.onUserLeftCall "Y" in_call))
  = Some 1 /\
  Media.closed (Media.onUserLeftCall "Y" in_call) = [0].
Proof.
  assert (Hne : "Z" <> "Y") by discriminate.
  split; [exact Hne|].
  destruct (user_left_call_forgets_the_peer in_call "Y")
    as [H1 [_ [H3 [H4 _]]]].
  split; [exact H1|]. split; [|exact H4].
  destruct (H3 "Z" Hne) as [H _]. exact H.
Defined.

Section Toggles.
Import Media.

Lemma sync_after_video v a tracks :
  forallb (fun t => Bool.eqb (enabled t) (if is_video t then v else a))
          tracks = true ->
  forallb (fun t => Bool.eqb (enabled t)
                             (if is_video t then negb v else a))
          (set_enabled is_video (negb v) tracks) = true.
Proof.
  unfold set_enabled.
  induction tracks as [|[k e] ts IH]; simpl; [reflexivity|].
  rewrite !andb_true_iff. intros [Ht Hts]. split; [|apply IH, Hts].
  destruct k; simpl in *; [apply Bool.eqb_reflx | exact Ht].
Qed.

Lemma sync_after_audio v a tracks :
  forallb (fun t => Bool.eqb (enabled t) (if is_video t then v else a))
          tracks = true ->
  forallb (fun t => Bool.eqb (enabled t)
                             (if is_video t then v else negb a))
          (set_enabled is_audio (negb a) tracks) = true.
Proof.
  unfold set_enabled.
  induction tracks as [|[k e] ts IH]; simpl; [reflexivity|].
  rewrite !andb_true_iff. intros [Ht Hts]. split; [|apply IH, Hts].
  destruct k; simpl in *; [exact Ht | apply Bool.eqb_reflx].
Qed.

Lemma video_back v a tracks :
  forallb (fun t => Bool.eqb (enabled t) (if is_video t then v else a))
          tracks = true ->
  set_enabled is_video v (set_enabled is_video (negb v) tracks) = tracks.
Proof.
  unfold set_enabled.
  induction tracks as [|[k e] ts IH]; simpl; [reflexivity|].
  rewrite andb_true_iff. intros [Ht Hts]. rewrite IH by exact Hts.
  f_equal. destruct k; simpl in *; [|reflexivity].
  apply Bool.eqb_prop in Ht. subst. reflexivity.
Qed.

Lemma audio_back v a tracks :
  forallb (fun t => Bool.eqb (enabled t) (if is_video t then v else a))
          tracks = true ->
  set_enabled is_audio a (set_enabled is_audio (negb a) tracks) = tracks.
Proof.
  unfold set_enabled.
  induction tracks as [|[k e] ts IH]; simpl; [reflexivity|].
  rewrite andb_true_iff. intros [Ht Hts]. rewrite IH by exact Hts.
  f_equal. destruct k; simpl in *; [reflexivity|].
  apply Bool.eqb_prop in Ht. subst. reflexivity.
Qed.

Lemma video_spares_audio v tracks :
  filter is_audio (set_enabled is_video v tracks) = filter is_audio tracks.
Proof.
  unfold set_enabled.
  induction tracks as [|[k e] ts IH]; simpl; [reflexivity|].
  destruct k; simpl; rewrite IH; reflexivity.
Qed.

Lemma audio_spares_video a tracks :
  filter is_video (set_enabled is_audio a tracks) = filter is_video tracks.
Proof.
  unfold set_enabled.
  induction tracks as [|[k e] ts IH]; simpl; [reflexivity|].
  destruct k; simpl; rewrite IH; reflexivity.
Qed.

End Toggles.

(** X19: as long as the camera and microphone buttons agree with the
    local tracks, they still do after any of the three toggles, and
    toggling the same button twice gives back the very state one
    started from.  Toggling the camera leaves the audio tracks alone
    and toggling the microphone leaves the video tracks alone. *)
Theorem toggles_keep_buttons_and_tracks_in_sync :
  forall c : Media.State,
    in_sync c = true ->
    in_sync (fst (Media.toggleVideo c)) = true /\
    in_sync (fst (Media.toggleAudio c)) = true /\
    in_sync (Media.toggleSpeaker c) = true /\
    fst (Media.toggleVideo (fst (Media.toggleVideo c))) = c /\
    fst (Media.toggleAudio (fst (Media.toggleAudio c))) = c /\
    Media.toggleSpeaker (Media.toggleSpeaker c) = c /\
    (forall tracks tracks',
       Media.localStream c = Some tracks ->
       Media.localStream (fst (Media.toggleVideo c)) = Some tracks' ->
       filter Media.is_audio tracks' = filter Media.is_audio tracks) /\
    (forall tracks tracks',
       Media.localStream c = Some tracks ->
       Media.localStream (fst (Media.toggleAudio c)) = Some tracks' ->
       filter Media.is_video tracks' = filter Media.is_video tracks).
Proof.
  intros [s r i [tracks|] rs pcs cl st v a sp];
    unfold in_sync, Media.toggleSpeaker; simpl.
  - intros Hsync.
    split; [apply sync_after_video, Hsync|].
    split; [apply sync_after_audio, Hsync|].
    split; [exact Hsync|].
    split; [rewrite negb_involutive, (video_back _ _ _ Hsync); reflexivity|].
    split; [rewrite negb_involutive, (audio_back _ _ _ Hsync); reflexivity|].
    split; [rewrite negb_involutive; reflexivity|].
    split; intros t t' Ht Ht'; inversion Ht; inversion Ht'; subst.
    + apply video_spares_audio.
    + apply audio_spares_video.
  - intros _.
    repeat (split; [reflexivity|]).
    split; [rewrite negb_involutive; reflexivity|].
    split; intros t t' Ht; discriminate Ht.
Qed.

Lemma toggles_keep_buttons_and_tracks_in_sync_witness :
  in_sync in_call = true /\
  fst (Media.toggleVideo (fst (Media.toggleVideo in_call))) = in_call /\
  in_sync (fst (Media.toggleAudio in_call)) = true.
Proof.
  split; [reflexivity|].
  pose proof (toggles_keep_buttons_and_tracks_in_sync in_call eq_refl)
    as [_ [Ha [_ [Hv _]]]].
  split; assumption.
Defined.


(* ===================================================================== *)
(** ** The room id field and the two code-update listeners *)
(* ===================================================================== *)

(** X20: the Room ID field is kept in upper case by its input handler
    and by the effect that reads the room from the URL, so what
    [joinRoom] sends is the field exactly as it is shown. *)
Theorem typed_room_id_is_sent_as_shown :
  forall (c : App.State) (typed rid name : string) (a : option string),
    typed <> EmptyString ->
    (snd (fst (App.joinRoom (App.onRoomIdInput typed c)))
     = [App.emit_join_room rid name a] ->
     rid = App.roomIdToJoin (App.onRoomIdInput typed c)) /\
    (snd (fst (App.joinRoom (App.onUrlRoom (Some typed) c)))
     = [App.emit_join_room rid name a] ->
     rid = App.roomIdToJoin (App.onUrlRoom (Some typed) c)) /\
    App.onUrlRoom (Some typed) c = App.onRoomIdInput typed c /\
    App.onUrlRoom None c = c /\
    App.onUrlRoom (Some EmptyString) c = c.
Proof.
  intros c typed rid name a Hne.
  assert (Hurl : App.onUrlRoom (Some typed) c = App.onRoomIdInput typed c).
  { unfold App.onUrlRoom. rewrite (falsy_nonempty Hne). reflexivity. }
  rewrite Hurl.
  assert (Hsent :
            snd (fst (App.joinRoom (App.onRoomIdInput typed c)))
            = [App.emit_join_room rid name a] ->
            rid = App.roomIdToJoin (App.onRoomIdInput typed c)).
  { unfold App.joinRoom.
    destruct (truthy (trim (App.userName (App.onRoomIdInput typed c))));
      simpl; [|discriminate].
    destruct (truthy (trim (toUpperCase typed))); simpl; [|discriminate].
    destruct (falsy (App.avatar c)); [discriminate|].
    destruct (App.offline (App.onRoomIdInput typed c)); [discriminate|].
    simpl. intros H. inversion H. apply toUpperCase_idem. }
  split; [exact Hsent|]. split; [exact Hsent|].
  split; [reflexivity|]. split; reflexivity.
Qed.

Lemma typed_room_id_is_sent_as_shown_witness :
  "abcd1234" <> EmptyString /\
  App.roomIdToJoin (App.onRoomIdInput "abcd1234" form_filled) = "ABCD1234".
Proof.
  assert (Hne : "abcd1234" <> EmptyString) by discriminate.
  split; [exact Hne|].
  destruct (@typed_room_id_is_sent_as_shown form_filled "abcd1234"
              "ABCD1234" "ann" (Some "/avatars/avatar1.png") Hne)
    as [H _].
  symmetry. apply H. reflexivity.
Defined.

(** X21: for a client whose socket id is not empty, the earlier and
    the later [code-update] listener agree on the editor's text for
    every update that carries a text and a user id: both drop the
    client's own echo and both take the text of anybody else.  The
    earlier one drops the language of its own echo too, and applies an
    update that carries no user id. *)
Theorem code_update_listeners_agree :
  forall (c : Client.State) (uid code' lang0 : string)
         (lang : option string),
    Client.self c <> EmptyString ->
    Legacy.text
      (Legacy.onCodeUpdate (Client.self c)
         (Legacy.mkCodeUpdate (Some uid) (Some code') lang)
         (Legacy.mkEditor (Client.editor c) lang0))
    = Client.editor (Client.onCodeUpdate code' uid c) /\
    Legacy.onCodeUpdate (Client.self c)
      (Legacy.mkCodeUpdate (Some (Client.self c)) (Some code') lang)
      (Legacy.mkEditor (Client.editor c) lang0)
    = Legacy.mkEditor (Client.editor c) lang0 /\
    Legacy.text
      (Legacy.onCodeUpdate (Client.self c)
         (Legacy.mkCodeUpdate None (Some code') lang)
         (Legacy.mkEditor (Client.editor c) lang0))
    = code'.
Proof.
  intros c uid code' lang0 lang Hself.
  unfold Legacy.onCodeUpdate, Client.onCodeUpdate. simpl.
  split; [|split].
  - destruct (String.eqb uid (Client.self c)) eqn:E.
    + apply String.eqb_eq in E. subst uid.
      apply String.eqb_neq in Hself. rewrite Hself. reflexivity.
    + rewrite andb_false_r. simpl.
      destruct lang as [l|]; [|reflexivity].
      simpl. destruct (String.eqb l EmptyString); reflexivity.
  - apply String.eqb_neq in Hself.
    rewrite Hself, String.eqb_refl. reflexivity.
  - destruct lang as [l|]; [|reflexivity].
    simpl. destruct (String.eqb l EmptyString); reflexivity.
Qed.

Lemma code_update_listeners_agree_witness :
  Client.self client_peering <> EmptyString /\
  Legacy.text
    (Legacy.onCodeUpdate "X"
       (Legacy.mkCodeUpdate (Some "Y") (Some "print(2)") (Some "python"))
       (Legacy.mkEditor EmptyString "javascript"))
  = Client.editor (Client.onCodeUpdate "print(2)" "Y" client_peering).
Proof.
  assert (Hne : Client.self client_peering <> EmptyString) by discriminate.
  split; [exact Hne|].
  apply (@code_update_listeners_agree client_peering "Y" "print(2)"
           "javascript" (Some "python") Hne).
Defined.
